(** * feeedy: feed polling, novelty filter, keyword filter and unread mailbox

    A shallow embedding of the polling and delivery pipeline of the bot
    (db.py, user_manager.py, feed_manager.py, ai_summary.py) and the
    properties its design document states about it.

    Python coroutines become computations in a state-and-exception monad
    over a [World] that holds the SQLite tables together with the parts of
    the environment the code consults: the clock, the upstream feeds, the
    direct-message channel and the schedule of storage faults. *)

From Stdlib Require Import ZArith Ascii String Sorting.Sorted Sorting.Permutation.
From stdpp Require Import base option list strings gmap.

Local Open Scope string_scope.
Local Open Scope list_scope.
Local Open Scope Z_scope.

(** ** Python values *)

(** The values that [json.loads] yields and that travel through the
    dict-shaped records of the program (floats do not occur). *)
#[warnings="-register-all"] Inductive pyval :=
  | PNone
  | PBool (b : bool)
  | PInt (z : Z)
  | PStr (s : string)
  | PList (l : list pyval)
  | PDict (d : list (string * pyval)).

(** A Python [dict] with string keys, in insertion order. *)
Abbreviation pydict := (list (string * pyval)).

(** [bool(v)]. *)
Definition truthy (v : pyval) : bool :=
  match v with
  | PNone => false
  | PBool b => b
  | PInt z => negb (Z.eqb z 0)
  | PStr s => negb (String.eqb s "")
  | PList l => match l with [] => false | _ => true end
  | PDict d => match d with [] => false | _ => true end
  end.

(** [d.get(key)] as an option. *)
Fixpoint dict_get (d : pydict) (key : string) : option pyval :=
  match d with
  | [] => None
  | (k, v) :: rest => if String.eqb k key then Some v else dict_get rest key
  end.

(** ** Exceptions and results *)

Inductive exn :=
  | AttributeError (name : string)
  | KeyError (key : string)
  | TypeError (what : string)
  | JSONDecodeError
  | OperationalError
  | HTTPException
  | ProviderError.

Inductive result (A : Type) :=
  | Ok (a : A)
  | Raise (e : exn).
Arguments Ok {A} a.
Arguments Raise {A} e.

(** [str(e)]; a [KeyError] prints the repr of its key. *)
Definition exn_str (e : exn) : string :=
  match e with
  | AttributeError name => "module has no attribute '" +:+ name +:+ "'"
  | KeyError key => "'" +:+ key +:+ "'"
  | TypeError what => what
  | JSONDecodeError => "Expecting value"
  | OperationalError => "unable to open database file"
  | HTTPException => "Cannot send messages to this user"
  | ProviderError => "No provider found"
  end.

(** ** Tables *)

(** A TEXT column that the code passes to [json.loads]: either the text
    does not parse, or it encodes a value. *)
Inductive json_text :=
  | Unparsable
  | Encodes (v : pyval).

(** Table [users]. [u_keywords] is [None] for NULL or the empty text. *)
Record user_row := {
  u_uid : Z;
  u_uname : string;
  u_cats : json_text;
  u_keywords : option json_text;
  u_created_at : string
}.

(** Table [last_seen], keyed by [url]. *)
Record last_seen_row := {
  last_entry_id : string;
  last_checked : string
}.

(** Table [unread_posts]. [created_at] is the ISO text written by
    [datetime.utcnow().isoformat()], compared as text by SQLite. *)
Record unread_row := {
  p_id : Z;
  p_uid : Z;
  p_cat : string;
  p_title : string;
  p_link : string;
  p_published : string;
  p_summary : string;
  p_created_at : string
}.

(** ** Feeds *)

(** A parsed entry: the text-valued keys of the [Dict] the code reads with
    [entry.get]. *)
Abbreviation Entry := (gmap string string).

Record Feed := { entries : list Entry }.

(** What is sent over a direct-message channel. *)
Inductive message :=
  | MText (text : string)
  | MFeedEmbed (category title link description published : string)
               (thumbnail_url : option string)
  | MSummaryEmbed (summary : pyval) (total_posts : pyval) (categories : pyval).

(** ** The world *)

Record World := {
  users : list user_row;
  last_seen : gmap string last_seen_row;
  unread_posts : list unread_row;
  (** largest rowid ever used by [unread_posts] (AUTOINCREMENT) *)
  unread_posts_seq : Z;
  (** one flag per connection still to be opened: [true] makes it fail *)
  db_faults : list bool;
  (** successive readings of [datetime.utcnow().isoformat()] *)
  clock : nat -> string;
  clock_reads : nat;
  (** what [fetch_feed] obtains for a url; [None] for any failure *)
  upstream : string -> option Feed;
  (** one flag per direct message still to be sent: [true] makes it fail *)
  dm_faults : list bool;
  (** direct messages delivered so far, oldest first *)
  outbox : list (Z * message);
  g4f_initialized : bool;
  (** outcome of the chat completion, should it be requested *)
  g4f_reply : result string
}.

Definition set_last_seen (f : gmap string last_seen_row -> gmap string last_seen_row)
    (w : World) : World :=
  {| users := users w; last_seen := f (last_seen w);
     unread_posts := unread_posts w; unread_posts_seq := unread_posts_seq w;
     db_faults := db_faults w; clock := clock w; clock_reads := clock_reads w;
     upstream := upstream w; dm_faults := dm_faults w; outbox := outbox w;
     g4f_initialized := g4f_initialized w; g4f_reply := g4f_reply w |}.

Definition set_unread (rows : list unread_row) (seq : Z) (w : World) : World :=
  {| users := users w; last_seen := last_seen w;
     unread_posts := rows; unread_posts_seq := seq;
     db_faults := db_faults w; clock := clock w; clock_reads := clock_reads w;
     upstream := upstream w; dm_faults := dm_faults w; outbox := outbox w;
     g4f_initialized := g4f_initialized w; g4f_reply := g4f_reply w |}.

Definition set_db_faults (fs : list bool) (w : World) : World :=
  {| users := users w; last_seen := last_seen w;
     unread_posts := unread_posts w; unread_posts_seq := unread_posts_seq w;
     db_faults := fs; clock := clock w; clock_reads := clock_reads w;
     upstream := upstream w; dm_faults := dm_faults w; outbox := outbox w;
     g4f_initialized := g4f_initialized w; g4f_reply := g4f_reply w |}.

Definition set_clock_reads (n : nat) (w : World) : World :=
  {| users := users w; last_seen := last_seen w;
     unread_posts := unread_posts w; unread_posts_seq := unread_posts_seq w;
     db_faults := db_faults w; clock := clock w; clock_reads := n;
     upstream := upstream w; dm_faults := dm_faults w; outbox := outbox w;
     g4f_initialized := g4f_initialized w; g4f_reply := g4f_reply w |}.

Definition set_dm (fs : list bool) (out : list (Z * message)) (w : World) : World :=
  {| users := users w; last_seen := last_seen w;
     unread_posts := unread_posts w; unread_posts_seq := unread_posts_seq w;
     db_faults := db_faults w; clock := clock w; clock_reads := clock_reads w;
     upstream := upstream w; dm_faults := fs; outbox := out;
     g4f_initialized := g4f_initialized w; g4f_reply := g4f_reply w |}.

(** ** The monad of coroutines *)

Definition Py (A : Type) : Type := World -> result A * World.

Definition ret {A} (a : A) : Py A := fun w => (Ok a, w).

Definition raise {A} (e : exn) : Py A := fun w => (Raise e, w).

Definition bind {A B} (m : Py A) (k : A -> Py B) : Py B :=
  fun w => match m w with
           | (Ok a, w') => k a w'
           | (Raise e, w') => (Raise e, w')
           end.

(** [try: m except Exception as e: h e]. Effects of [m] up to the point
    where it raised are kept. *)
Definition try_except {A} (m : Py A) (h : exn -> Py A) : Py A :=
  fun w => match m w with
           | (Ok a, w') => (Ok a, w')
           | (Raise e, w') => h e w'
           end.

#[global] Instance Py_ret : MRet Py := @ret.
#[global] Instance Py_bind : MBind Py := fun A B k m => bind m k.

Definition get_world : Py World := fun w => (Ok w, w).
Definition modify (f : World -> World) : Py unit := fun w => (Ok tt, f w).

(** [for x in xs: body x]. *)
Fixpoint for_each {A} (xs : list A) (body : A -> Py unit) : Py unit :=
  match xs with
  | [] => ret tt
  | x :: rest => body x;; for_each rest body
  end.

(** ** db.py *)

(** [aiosqlite.connect(DB_PATH)] and the statement run on the connection:
    the next fault flag decides whether the storage engine raises. A
    statement that raised has changed nothing. *)
Definition connect : Py unit :=
  fun w => match db_faults w with
           | [] => (Ok tt, w)
           | f :: fs => (if f then Raise OperationalError else Ok tt,
                         set_db_faults fs w)
           end.

(** [datetime.utcnow().isoformat()]. *)
Definition utcnow : Py string :=
  fun w => (Ok (clock w (clock_reads w)), set_clock_reads (S (clock_reads w)) w).

Definition update_last_seen (url entry_id : string) : Py bool :=
  try_except
    (connect;;
     now ← utcnow;
     modify (set_last_seen
               <[url := {| last_entry_id := entry_id; last_checked := now |}]>);;
     ret true)
    (fun _ => ret false).

Definition get_last_seen (url : string) : Py (option string) :=
  try_except
    (connect;;
     w ← get_world;
     ret (last_entry_id <$> last_seen w !! url))
    (fun _ => ret None).

(** ** feed_manager.py: the novelty filter *)

(** [fetch_feed(feed_url)]: the parsed feed, or [None] on a failed or
    timed-out request. *)
Definition fetch_feed (feed_url : string) : Py (option Feed) :=
  fun w => (Ok (upstream w feed_url), w).

(** [a or b] on an optional text: [a] when it is present and non-empty. *)
Definition or_else (a : option string) (b : option string) : option string :=
  match a with
  | Some s => if String.eqb s "" then b else a
  | None => b
  end.

Definition get_entry_id (entry : Entry) : string :=
  match or_else (entry !! "id") (entry !! "link") with
  | Some s => if String.eqb s "" then default "unknown" (entry !! "title") else s
  | None => default "unknown" (entry !! "title")
  end.

(** The [for entry in feed.entries] loop of [get_new_entries], with its
    two local variables; returning from the recursion is [break]. *)
Fixpoint novelty_loop (last_seen_id : option string) (feed_entries : list Entry)
    (latest_id : option string) (new_entries : list Entry)
    : option string * list Entry :=
  match feed_entries with
  | [] => (latest_id, new_entries)
  | entry :: rest =>
      let entry_id := get_entry_id entry in
      let latest_id :=
        match latest_id with None => Some entry_id | Some _ => latest_id end in
      match last_seen_id with
      | None => (latest_id, new_entries ++ [entry])
      | Some seen =>
          if String.eqb entry_id seen then (latest_id, new_entries)
          else novelty_loop last_seen_id rest latest_id (new_entries ++ [entry])
      end
  end.

(** Truth value of an optional text. *)
Definition truthy_id (i : option string) : bool :=
  match i with
  | Some s => negb (String.eqb s "")
  | None => false
  end.

Definition nonempty {A} (l : list A) : bool :=
  match l with [] => false | _ => true end.

Definition get_new_entries (feed_url : string) (feed : Feed) : Py (list Entry) :=
  try_except
    (last_seen_id ← get_last_seen feed_url;
     if negb (nonempty (entries feed)) then ret []
     else
       let '(latest_id, new_entries) :=
         novelty_loop last_seen_id (entries feed) None [] in
       (if truthy_id latest_id && nonempty new_entries
        then update_last_seen feed_url (default "" latest_id);; ret tt
        else ret tt);;
       ret new_entries)
    (fun _ => ret []).

(** ** db.py: users *)

Definition json_loads (t : json_text) : Py pyval :=
  match t with
  | Unparsable => raise JSONDecodeError
  | Encodes v => ret v
  end.

(** [[f(x) for x in xs]] for a body that may raise. *)
Fixpoint map_py {A B} (f : A -> Py B) (xs : list A) : Py (list B) :=
  match xs with
  | [] => ret []
  | x :: rest => y ← f x; ys ← map_py f rest; ret (y :: ys)
  end.

(** [json.loads(row["keywords"]) if row["keywords"] else []]. *)
Definition keywords_of_row (row : user_row) : Py pyval :=
  match u_keywords row with
  | Some t => json_loads t
  | None => ret (PList [])
  end.

Definition get_user (uid : Z) : Py (option pydict) :=
  try_except
    (connect;;
     w ← get_world;
     match List.find (fun r => Z.eqb (u_uid r) uid) (users w) with
     | Some row =>
         cats ← json_loads (u_cats row);
         keywords ← keywords_of_row row;
         ret (Some [("uid", PInt (u_uid row)); ("uname", PStr (u_uname row));
                    ("cats", cats); ("keywords", keywords);
                    ("created_at", PStr (u_created_at row))])
     | None => ret None
     end)
    (fun _ => ret None).

Definition get_all_users : Py (list pydict) :=
  try_except
    (connect;;
     w ← get_world;
     map_py (fun row =>
               cats ← json_loads (u_cats row);
               keywords ← keywords_of_row row;
               ret [("uid", PInt (u_uid row)); ("uname", PStr (u_uname row));
                    ("cats", cats); ("keywords", keywords)])
            (users w))
    (fun _ => ret []).

(** ** db.py: unread posts *)

Definition add_unread_post (uid : Z) (cat title link published summary : string)
    : Py bool :=
  try_except
    (connect;;
     now ← utcnow;
     modify (fun w =>
       let id := unread_posts_seq w + 1 in
       set_unread
         (unread_posts w ++
          [{| p_id := id; p_uid := uid; p_cat := cat; p_title := title;
              p_link := link; p_published := published; p_summary := summary;
              p_created_at := now |}])
         id w);;
     ret true)
    (fun _ => ret false).

(** [ORDER BY created_at DESC]: rows with the later text first. SQL leaves
    the order of rows with equal [created_at] open; here a row stays ahead
    of the rows of the same [created_at] that follow it in the table. *)
Fixpoint insert_desc (r : unread_row) (sorted : list unread_row) : list unread_row :=
  match sorted with
  | [] => [r]
  | r' :: rest =>
      if String.leb (p_created_at r') (p_created_at r)
      then r :: sorted
      else r' :: insert_desc r rest
  end.

Definition order_by_created_at_desc (rows : list unread_row) : list unread_row :=
  foldr insert_desc [] rows.

(** [LIMIT n]: a negative bound means no bound. *)
Definition sql_limit {A} (n : Z) (rows : list A) : list A :=
  if n <? 0 then rows else take (Z.to_nat n) rows.

Definition row_to_post (row : unread_row) : pydict :=
  [("id", PInt (p_id row)); ("cat", PStr (p_cat row));
   ("title", PStr (p_title row)); ("link", PStr (p_link row));
   ("published", PStr (p_published row)); ("summary", PStr (p_summary row));
   ("created_at", PStr (p_created_at row))].

Definition get_unread_posts (uid : Z) (limit : Z) : Py (list pydict) :=
  try_except
    (connect;;
     w ← get_world;
     ret (map row_to_post
            (sql_limit limit
               (order_by_created_at_desc
                  (List.filter (fun r => Z.eqb (p_uid r) uid) (unread_posts w))))))
    (fun _ => ret []).

Definition clear_unread_posts (uid : Z) : Py bool :=
  try_except
    (connect;;
     modify (fun w =>
       set_unread (List.filter (fun r => negb (Z.eqb (p_uid r) uid)) (unread_posts w))
                  (unread_posts_seq w) w);;
     ret true)
    (fun _ => ret false).

(** The rows of one (subscriber, category) mailbox, in table order. *)
Definition in_mailbox (uid : Z) (cat : string) (r : unread_row) : bool :=
  Z.eqb (p_uid r) uid && String.eqb (p_cat r) cat.

Definition mailbox (uid : Z) (cat : string) (rows : list unread_row) : list unread_row :=
  List.filter (in_mailbox uid cat) rows.

(** The subquery of [trim_unread_posts]: ids of the [limit] newest rows. *)
Definition newest_ids (uid : Z) (cat : string) (limit : Z) (rows : list unread_row)
    : list Z :=
  map p_id (sql_limit limit (order_by_created_at_desc (mailbox uid cat rows))).

Definition id_in (ids : list Z) (i : Z) : bool := existsb (Z.eqb i) ids.

(** The DELETE of [trim_unread_posts] as the rows it leaves. *)
Definition trim_rows (uid : Z) (cat : string) (limit : Z) (rows : list unread_row)
    : list unread_row :=
  let keep := newest_ids uid cat limit rows in
  List.filter (fun r => negb (in_mailbox uid cat r && negb (id_in keep (p_id r)))) rows.

Definition trim_unread_posts (uid : Z) (cat : string) (limit : Z) : Py bool :=
  try_except
    (connect;;
     modify (fun w =>
       set_unread (trim_rows uid cat limit (unread_posts w)) (unread_posts_seq w) w);;
     ret true)
    (fun _ => ret false).

(** ** Python operators on values *)

(** [d[key]]. *)
Definition getitem (d : pydict) (key : string) : Py pyval :=
  match dict_get d key with
  | Some v => ret v
  | None => raise (KeyError key)
  end.

(** [needle in hay] on text. *)
Fixpoint str_contains (needle hay : string) : bool :=
  String.prefix needle hay ||
  match hay with
  | EmptyString => false
  | String _ rest => str_contains needle rest
  end.

(** [x == s] for a text [s]. *)
Definition eq_str (x : pyval) (s : string) : bool :=
  match x with
  | PStr t => String.eqb t s
  | _ => false
  end.

(** [item in container] for a text [item]. *)
Definition py_contains (item : string) (container : pyval) : Py bool :=
  match container with
  | PList l => ret (existsb (fun x => eq_str x item) l)
  | PDict d => ret (existsb (fun kv => String.eqb (fst kv) item) d)
  | PStr s => ret (str_contains item s)
  | _ => raise (TypeError "argument is not iterable")
  end.

(** The characters of a text, as one-character texts. *)
Fixpoint chars (s : string) : list pyval :=
  match s with
  | EmptyString => []
  | String c rest => PStr (String c EmptyString) :: chars rest
  end.

(** [iter(v)], run to the end. *)
Definition py_iter (v : pyval) : Py (list pyval) :=
  match v with
  | PList l => ret l
  | PDict d => ret (map (fun kv => PStr (fst kv)) d)
  | PStr s => ret (chars s)
  | _ => raise (TypeError "object is not iterable")
  end.

(** [c.lower()] on one character: the letters A to Z are folded, every
    other character is kept. *)
Definition lower_ascii (c : ascii) : ascii :=
  let n := nat_of_ascii c in
  if (Nat.leb 65 n && Nat.leb n 90)%bool then ascii_of_nat (n + 32) else c.

Fixpoint str_lower (s : string) : string :=
  match s with
  | EmptyString => EmptyString
  | String c rest => String (lower_ascii c) (str_lower rest)
  end.

(** [v.lower()]. *)
Definition py_lower (v : pyval) : Py string :=
  match v with
  | PStr s => ret (str_lower s)
  | _ => raise (AttributeError "lower")
  end.

(** [any(p(x) for x in xs)]: stops at the first true. *)
Fixpoint py_any {A} (p : A -> Py bool) (xs : list A) : Py bool :=
  match xs with
  | [] => ret false
  | x :: rest => b ← p x; if b : bool then ret true else py_any p rest
  end.

(** ** user_manager.py *)

Definition get_users_by_cat (cat : string) : Py (list pydict) :=
  try_except
    (all_users ← get_all_users;
     flags ← map_py (fun user =>
                       subscribed ← getitem user "subscribed_cats";
                       keep ← py_contains cat subscribed;
                       ret (keep, user))
                    all_users;
     ret (map snd (List.filter fst flags)))
    (fun _ => ret []).

Definition get_user_keywords (uid : Z) : Py pyval :=
  try_except
    (user ← get_user uid;
     match user with
     | Some u => getitem u "keywords"
     | None => ret (PList [])
     end)
    (fun _ => ret (PList [])).

(** The body of the [try] of [should_show_post]. *)
Definition should_show_post_body (uid : Z) (title summary : string) : Py bool :=
  keywords ← get_user_keywords uid;
  if negb (truthy keywords) then ret true
  else
    let content := str_lower (title +:+ " " +:+ summary) in
    ks ← py_iter keywords;
    py_any (fun keyword => k ← py_lower keyword; ret (str_contains k content)) ks.

Definition should_show_post (uid : Z) (title summary : string) : Py bool :=
  try_except (should_show_post_body uid title summary) (fun _ => ret true).

(** The names bound at module level in user_manager.py that are callable
    with one category and yield a user list, looked up as
    [user_manager.<name>]. The module binds [logging], [db], [log],
    [setup_user], [add_cat_to_user], [remove_cat_from_user],
    [get_user_cats], [get_user_feeds], [get_users_by_cat],
    [add_keyword_filter], [get_user_keywords], [should_show_post],
    [get_user_stats], [is_user_registered] and [get_all_active_users]. *)
Definition user_manager_names : list string :=
  ["logging"; "db"; "log"; "setup_user"; "add_cat_to_user";
   "remove_cat_from_user"; "get_user_cats"; "get_user_feeds";
   "get_users_by_cat"; "add_keyword_filter"; "get_user_keywords";
   "should_show_post"; "get_user_stats"; "is_user_registered";
   "get_all_active_users"].

(** [await user_manager.<name>(category)] where a user list is expected:
    the attribute lookup raises for a name the module does not bind. *)
Definition user_manager_resolve (name : string) (category : string)
    : Py (list pydict) :=
  if negb (existsb (String.eqb name) user_manager_names)
  then raise (AttributeError name)
  else if String.eqb name "get_users_by_cat" then get_users_by_cat category
  else raise (TypeError "not a subscriber resolver").

(** ** utils.py and the Discord client *)

(** The text utilities of utils.py that the pipeline applies to entries.
    Both are total and touch no state; nothing below depends on what they
    compute. *)
Class Utils := {
  clean_html : string -> string;
  get_entry_thumbnail : Entry -> option string
}.

(** The connected client, [bot]. *)
Inductive Bot : Set := DiscordBot.

(** [user = await bot.fetch_user(uid); await user.send(msg)]: the next
    fault flag decides whether the pair raises; otherwise the message is
    delivered. *)
Definition send_dm (bot : Bot) (uid : Z) (msg : message) : Py unit :=
  fun w => match dm_faults w with
           | [] => (Ok tt, set_dm [] (outbox w ++ [(uid, msg)]) w)
           | f :: fs =>
               if f then (Raise HTTPException, set_dm fs (outbox w) w)
               else (Ok tt, set_dm fs (outbox w ++ [(uid, msg)]) w)
           end.

(** A value used as the [uid] parameter of a statement. Only integers
    are bound as such; every caller passes an integer. *)
Definition as_uid (v : pyval) : Py Z :=
  match v with
  | PInt z => ret z
  | PBool b => ret (if b then 1 else 0)
  | _ => raise (TypeError "Error binding parameter")
  end.

(** [utils.create_feed_embed(...)]; the layout of the embed is left out. *)
Definition create_feed_embed (title link description category published : string)
    (thumbnail_url : option string) : message :=
  MFeedEmbed category title link description published thumbnail_url.

(** Binding of the keyword arguments of a call to the parameter list of the callee, none of
    which has a default: the values in parameter order. *)
Definition bind_keywords (params : list string) (kwargs : pydict) : Py (list pyval) :=
  match List.find (fun kv => negb (existsb (String.eqb (fst kv)) params)) kwargs with
  | Some kv => raise (TypeError ("got an unexpected keyword argument '" +:+ fst kv +:+ "'"))
  | None => map_py (fun p => match dict_get kwargs p with
                             | Some v => ret v
                             | None => raise (TypeError ("missing required argument '" +:+ p +:+ "'"))
                             end) params
  end.

(** [utils.create_summary_embed(summary, total_posts, categories)], called
    with keyword arguments; the layout of the embed is left out. *)
Definition create_summary_embed (kwargs : pydict) : Py message :=
  args ← bind_keywords ["summary"; "total_posts"; "categories"] kwargs;
  match args with
  | [summary; total_posts; categories] =>
      ret (MSummaryEmbed summary total_posts categories)
  | _ => raise (TypeError "create_summary_embed")
  end.

(** ** feed_manager.py: delivery *)

Definition post_entry_to_discord (bot : Bot) (category title link summary published : string)
    (thumbnail_url : option string) (users : list pydict) : Py unit :=
  try_except
    (let embed := create_feed_embed title link summary category published thumbnail_url in
     for_each users (fun user =>
       user_id ← getitem user "user_id";
       user_id ← as_uid user_id;
       show ← should_show_post user_id title summary;
       if negb show then ret tt
       else try_except (send_dm bot user_id embed) (fun _ => ret tt)))
    (fun _ => ret tt).

Definition process_feed `{Utils} (category feed_url : string) (bot_instance : option Bot)
    : Py Z :=
  try_except
    (feed ← fetch_feed feed_url;
     match feed with
     | None => ret 0
     | Some feed =>
         new_entries ← get_new_entries feed_url feed;
         if negb (nonempty new_entries) then ret 0
         else
           users ← user_manager_resolve "get_users_by_category" category;
           for_each (rev new_entries) (fun entry =>
             let title := default "No title" (entry !! "title") in
             let link := default "" (entry !! "link") in
             let summary :=
               clean_html (default (default "" (entry !! "description"))
                                   (entry !! "summary")) in
             let published :=
               default (default "" (entry !! "updated")) (entry !! "published") in
             let thumbnail_url := get_entry_thumbnail entry in
             for_each users (fun user =>
               user_id ← getitem user "user_id";
               user_id ← as_uid user_id;
               show ← should_show_post user_id title summary;
               if show : bool then
                 add_unread_post user_id category title link published summary;;
                 trim_unread_posts user_id category 10;;
                 ret tt
               else ret tt);;
             match bot_instance with
             | Some bot =>
                 post_entry_to_discord bot category title link summary published
                                       thumbnail_url users
             | None => ret tt
             end);;
           ret (Z.of_nat (length new_entries))
     end)
    (fun _ => ret 0).

(** ** ai_summary.py *)

(** [g4f.ChatCompletion.create(...)]: whatever the provider answers. *)
Definition chat_completion : Py string :=
  fun w => (g4f_reply w, w).

(** [generate_sum(posts)]. The prompt is laid out from the [category_name],
    [title] and [link] of every post; its text is left out, the lookups
    that can raise are kept. *)
Definition generate_sum (posts : list pydict) : Py string :=
  w ← get_world;
  if negb (g4f_initialized w)
  then ret "Error: G4F not initialized. Please restart the bot."
  else if negb (nonempty posts) then ret "No new posts to summarize."
  else
    try_except
      (for_each posts (fun post => getitem post "category_name";; ret tt);;
       for_each posts (fun post => getitem post "title";; getitem post "link";; ret tt);;
       chat_completion)
      (fun e => ret ("Error generating sum: " +:+ exn_str e)).

(** [categories[cat] = categories.get(cat, 0) + 1]. *)
Fixpoint count_category (cat : string) (categories : pydict) : pydict :=
  match categories with
  | [] => [(cat, PInt 1)]
  | (k, v) :: rest =>
      if String.eqb k cat
      then (k, match v with PInt n => PInt (n + 1) | _ => v end) :: rest
      else (k, v) :: count_category cat rest
  end.

(** A value used as a key of [categories]; category names are text. *)
Definition as_key (v : pyval) : Py string :=
  match v with
  | PStr s => ret s
  | _ => raise (TypeError "unhashable type")
  end.

Fixpoint count_categories (posts : list pydict) (categories : pydict) : Py pydict :=
  match posts with
  | [] => ret categories
  | post :: rest =>
      cat ← getitem post "category_name";
      cat ← as_key cat;
      count_categories rest (count_category cat categories)
  end.

Definition generate_user_sum (uid : Z) (limit : Z) : Py pydict :=
  try_except
    (posts ← get_unread_posts uid limit;
     if negb (nonempty posts)
     then ret [("success", PBool false); ("msg", PStr "You have no unread posts!")]
     else
       user ← get_user uid;
       sum_text ← generate_sum posts;
       categories ← count_categories posts [];
       username ← match user with
                  | Some u => getitem u "username"
                  | None => ret (PStr "Unknown")
                  end;
       ret [("success", PBool true); ("sum", PStr sum_text);
            ("total_posts", PInt (Z.of_nat (length posts)));
            ("categories", PDict categories); ("username", username)])
    (fun e => ret [("success", PBool false);
                   ("msg", PStr ("Error generating sum: " +:+ exn_str e))]).

(** The text of a message value passed to [user.send]. *)
Definition as_text (v : pyval) : message :=
  match v with
  | PStr s => MText s
  | _ => MText ""
  end.

Definition send_sum_to_user (bot : Bot) (uid : Z) (clear_after : bool) : Py bool :=
  try_except
    (result ← generate_user_sum uid 50;
     success ← getitem result "success";
     if negb (truthy success) then
       try_except (msg ← getitem result "msg"; send_dm bot uid (as_text msg))
                  (fun _ => ret tt);;
       ret false
     else
       sum ← getitem result "sum";
       total_posts ← getitem result "total_posts";
       categories ← getitem result "categories";
       embed ← create_summary_embed
                 [("sum", sum); ("total_posts", total_posts); ("categories", categories)];
       try_except
         (send_dm bot uid embed;;
          (if clear_after then clear_unread_posts uid;; ret tt else ret tt);;
          ret true)
         (fun _ => ret false))
    (fun _ => ret false).

(** ** Concrete inputs *)

(** The utilities as the identity on text and no thumbnail. *)
Definition plain_utils : Utils :=
  {| clean_html := fun text => text; get_entry_thumbnail := fun _ => None |}.

Definition entry_of (fields : list (string * string)) : Entry := list_to_map fields.

Definition two_digits (n : nat) : string :=
  String (ascii_of_nat (48 + (n / 10) mod 10))
         (String (ascii_of_nat (48 + n mod 10)) EmptyString).

(** A clock that advances by one second per reading. *)
Definition demo_clock (n : nat) : string := "2024-01-01T00:00:" +:+ two_digits n.

Definition demo_url : string := "http://feed.example/rss".

(** A world with the given tables, fault schedule and upstream feed at
    [demo_url]; nothing has been sent and the clock has not been read. *)
Definition make_world (us : list user_row) (seen : gmap string last_seen_row)
    (rows : list unread_row) (seq : Z) (faults : list bool) (feed : option Feed)
    : World :=
  {| users := us; last_seen := seen; unread_posts := rows;
     unread_posts_seq := seq; db_faults := faults;
     clock := demo_clock; clock_reads := 0;
     upstream := fun url => if String.eqb url demo_url then feed else None;
     dm_faults := []; outbox := [];
     g4f_initialized := true; g4f_reply := Ok "Two posts about compilers." |}.

Definition entry_a : Entry := entry_of [("id", "a"); ("title", "T1")].
Definition entry_b : Entry := entry_of [("id", "b"); ("title", "T2")].
Definition entry_c : Entry := entry_of [("id", "c"); ("title", "T3")].

(** Newest first: [b] was published after [a]. *)
Definition feed_ba : Feed := {| entries := [entry_b; entry_a] |}.

Definition seen_at (entry_id : string) : gmap string last_seen_row :=
  {[ demo_url := {| last_entry_id := entry_id;
                    last_checked := "2023-12-31T23:59:59" |} ]}.

(** The upstream feeds as they stand after a change at the source. *)
Definition set_upstream (up : string -> option Feed) (w : World) : World :=
  {| users := users w; last_seen := last_seen w;
     unread_posts := unread_posts w; unread_posts_seq := unread_posts_seq w;
     db_faults := db_faults w; clock := clock w; clock_reads := clock_reads w;
     upstream := up; dm_faults := dm_faults w; outbox := outbox w;
     g4f_initialized := g4f_initialized w; g4f_reply := g4f_reply w |}.

(** A row of [users] whose stored category list names [cat]. *)
Definition subscribed_to (cat : string) (row : user_row) : bool :=
  match u_cats row with
  | Encodes (PList cats) => existsb (fun c => eq_str c cat) cats
  | _ => false
  end.

Definition ann : user_row :=
  {| u_uid := 1; u_uname := "ann"; u_cats := Encodes (PList [PStr "tech"]);
     u_keywords := Some (Encodes (PList [])); u_created_at := "2023-11-05T10:00:00" |}.


(** An item with an empty title and neither guid nor link. *)
Definition entry_untitled : Entry := entry_of [("title", ""); ("summary", "text")].

Definition feed_untitled : Feed := {| entries := [entry_untitled] |}.


(** ** Words of the keyword rule *)



Definition user_with_keywords (uid : Z) (keywords : pyval) : user_row :=
  {| u_uid := uid; u_uname := "bob"; u_cats := Encodes (PList [PStr "tech"]);
     u_keywords := Some (Encodes keywords); u_created_at := "2023-11-05T10:00:00" |}.

(** ** Words of the mailbox bound *)

(** The arguments of one call of [add_unread_post]. *)
Record enqueue := {
  e_uid : Z;
  e_cat : string;
  e_title : string;
  e_link : string;
  e_published : string;
  e_summary : string
}.

(** A sequence of enqueues, in order. *)
Definition enqueue_all (es : list enqueue) : Py unit :=
  for_each es (fun e =>
    add_unread_post (e_uid e) (e_cat e) (e_title e) (e_link e)
                    (e_published e) (e_summary e);;
    ret tt).

(** What the schema guarantees of [unread_posts]: [id] is a key, and
    AUTOINCREMENT has handed out no id above its counter. *)
Definition unread_posts_keyed (w : World) : Prop :=
  NoDup (map p_id (unread_posts w))
  /\ Forall (fun r => p_id r <= unread_posts_seq w) (unread_posts w).

(** [x] was created no earlier than [y], by the text of [created_at]. *)
Definition newer_or_same (x y : unread_row) : Prop :=
  String.leb (p_created_at y) (p_created_at x) = true.

Definition post_for (uid : Z) (cat title : string) : enqueue :=
  {| e_uid := uid; e_cat := cat; e_title := title; e_link := "http://l";
     e_published := ""; e_summary := "" |}.

(** ** Words of the summary rule *)

(** Between [w] and [w'] a summary embed has reached [uid]. *)
Definition summary_delivered (uid : Z) (w w' : World) : Prop :=
  exists before summary total_posts categories after,
    outbox w' = outbox w ++ before
                ++ (uid, MSummaryEmbed summary total_posts categories) :: after.

Definition unread_of_ann : unread_row :=
  {| p_id := 1; p_uid := 1; p_cat := "tech"; p_title := "T1";
     p_link := "http://l"; p_published := ""; p_summary := "";
     p_created_at := "2024-01-01T00:00:00" |}.

(** What a step leaves alone when it only talks to storage or to the
    provider. *)
Definition keeps_mail (w w' : World) : Prop :=
  unread_posts w' = unread_posts w /\ outbox w' = outbox w.

(** * The rest of the storage layer and of the user manager *)

(** ** db.py: writing users *)

Definition set_users (us : list user_row) (w : World) : World :=
  {| users := us; last_seen := last_seen w;
     unread_posts := unread_posts w; unread_posts_seq := unread_posts_seq w;
     db_faults := db_faults w; clock := clock w; clock_reads := clock_reads w;
     upstream := upstream w; dm_faults := dm_faults w; outbox := outbox w;
     g4f_initialized := g4f_initialized w; g4f_reply := g4f_reply w |}.

(** [json.dumps(v)]: a text that [json.loads] reads back as [v]. *)
Definition json_dumps (v : pyval) : json_text := Encodes v.

(** [INSERT OR REPLACE INTO users (uid, uname, cats, created_at)]: a row
    with the same key goes, the new row takes the default ['[]'] for
    [keywords]. *)
Definition replace_user (row : user_row) (us : list user_row) : list user_row :=
  List.filter (fun r => negb (Z.eqb (u_uid r) (u_uid row))) us ++ [row].

Definition add_user (uid : Z) (uname : string) (cats : pyval) : Py bool :=
  let cats := match cats with PNone => PList [] | _ => cats end in
  try_except
    (connect;;
     now ← utcnow;
     modify (fun w =>
       set_users (replace_user {| u_uid := uid; u_uname := uname;
                                  u_cats := json_dumps cats;
                                  u_keywords := Some (Encodes (PList []));
                                  u_created_at := now |} (users w)) w);;
     ret true)
    (fun _ => ret false).

Definition with_cats (cats : json_text) (r : user_row) : user_row :=
  {| u_uid := u_uid r; u_uname := u_uname r; u_cats := cats;
     u_keywords := u_keywords r; u_created_at := u_created_at r |}.

(** [UPDATE users SET cats = ? WHERE uid = ?]. *)
Definition update_cats (uid : Z) (cats : json_text) (us : list user_row)
    : list user_row :=
  map (fun r => if Z.eqb (u_uid r) uid then with_cats cats r else r) us.

Definition update_user_subscriptions (uid : Z) (categories : pyval) : Py bool :=
  try_except
    (connect;;
     modify (fun w => set_users (update_cats uid (json_dumps categories) (users w)) w);;
     ret true)
    (fun _ => ret false).

Definition with_keywords (keywords : json_text) (r : user_row) : user_row :=
  {| u_uid := u_uid r; u_uname := u_uname r; u_cats := u_cats r;
     u_keywords := Some keywords; u_created_at := u_created_at r |}.

(** [UPDATE users SET keywords = ? WHERE uid = ?]. *)
Definition update_keywords (uid : Z) (keywords : json_text) (us : list user_row)
    : list user_row :=
  map (fun r => if Z.eqb (u_uid r) uid then with_keywords keywords r else r) us.

(** [xs.append(x)]: only a list has the method. *)
Definition py_append (xs : pyval) (x : pyval) : Py pyval :=
  match xs with
  | PList l => ret (PList (l ++ [x]))
  | _ => raise (AttributeError "append")
  end.

Definition add_user_keyword (uid : Z) (keyword : string) : Py bool :=
  try_except
    (user ← get_user uid;
     match user with
     | None => ret false
     | Some u =>
         let keywords := default (PList []) (dict_get u "keywords") in
         ks ← py_iter keywords;
         lowered ← map_py py_lower ks;
         if negb (existsb (String.eqb (str_lower keyword)) lowered) then
           keywords ← py_append keywords (PStr (str_lower keyword));
           connect;;
           modify (fun w =>
             set_users (update_keywords uid (json_dumps keywords) (users w)) w);;
           ret true
         else ret true
     end)
    (fun _ => ret false).

Definition get_unread_count (uid : Z) : Py Z :=
  try_except
    (connect;;
     w ← get_world;
     ret (Z.of_nat (length (List.filter (fun r => Z.eqb (p_uid r) uid)
                                        (unread_posts w)))))
    (fun _ => ret 0).

(** ** user_manager.py: subscriptions *)

(** [sep.join(v)]: every item must be text. *)
Fixpoint join_texts (sep : string) (items : list pyval) : Py string :=
  match items with
  | [] => ret ""
  | item :: rest =>
      match item with
      | PStr s =>
          match rest with
          | [] => ret s
          | _ => tail ← join_texts sep rest; ret (s +:+ sep +:+ tail)
          end
      | _ => raise (TypeError "sequence item: expected str instance")
      end
  end.

Definition py_join (sep : string) (v : pyval) : Py string :=
  items ← py_iter v; join_texts sep items.

Definition setup_user (uid : Z) (uname : string) (cats : pyval) : Py bool :=
  try_except
    (user ← get_user uid;
     success ← match user with
               | Some _ => update_user_subscriptions uid cats
               | None => add_user uid uname cats
               end;
     (if success : bool then py_join ", " cats;; ret tt else ret tt);;
     ret success)
    (fun _ => ret false).

(** [xs.remove(x)]: the first item equal to the text [x] goes. *)
Fixpoint remove_first (x : string) (l : list pyval) : list pyval :=
  match l with
  | [] => []
  | y :: rest => if eq_str y x then rest else y :: remove_first x rest
  end.

Definition py_remove (xs : pyval) (x : string) : Py pyval :=
  match xs with
  | PList l => ret (PList (remove_first x l))
  | _ => raise (AttributeError "remove")
  end.

Definition add_cat_to_user (uid : Z) (cat : string) : Py bool :=
  try_except
    (user ← get_user uid;
     match user with
     | None => ret false
     | Some u =>
         cats ← getitem u "subscribed_cats";
         present ← py_contains cat cats;
         if negb present then
           cats ← py_append cats (PStr cat);
           update_user_subscriptions uid cats
         else ret true
     end)
    (fun _ => ret false).

Definition remove_cat_from_user (uid : Z) (cat : string) : Py bool :=
  try_except
    (user ← get_user uid;
     match user with
     | None => ret false
     | Some u =>
         cats ← getitem u "subscribed_cats";
         present ← py_contains cat cats;
         if present : bool then
           cats ← py_remove cats cat;
           update_user_subscriptions uid cats
         else ret true
     end)
    (fun _ => ret false).

Definition get_user_cats (uid : Z) : Py pyval :=
  try_except
    (user ← get_user uid;
     match user with
     | Some u => getitem u "subscribed_cats"
     | None => ret (PList [])
     end)
    (fun _ => ret (PList [])).

Definition add_keyword_filter (uid : Z) (keyword : string) : Py bool :=
  try_except (add_user_keyword uid keyword) (fun _ => ret false).

Definition is_user_registered (uid : Z) : Py bool :=
  user ← get_user uid;
  ret (match user with Some _ => true | None => false end).

(** [len(v)]. *)
Definition py_len (v : pyval) : Py Z :=
  match v with
  | PList l => ret (Z.of_nat (length l))
  | PDict d => ret (Z.of_nat (length d))
  | PStr s => ret (Z.of_nat (String.length s))
  | _ => raise (TypeError "object has no len()")
  end.

Definition get_all_active_users : Py (list pydict) :=
  try_except
    (all_users ← get_all_users;
     flags ← map_py (fun user =>
                       subscribed ← getitem user "subscribed_cats";
                       n ← py_len subscribed;
                       ret (0 <? n, user))
                    all_users;
     ret (map snd (List.filter fst flags)))
    (fun _ => ret []).

(** ** feed_manager.py: previews *)

(** [send_latest_feed_preview]. The author line set on the embed belongs
    to its layout, which is left out. *)
Definition send_latest_feed_preview `{Utils} (bot : Bot) (user_id : Z)
    (category feed_url : string) : Py bool :=
  try_except
    (feed ← fetch_feed feed_url;
     match feed with
     | None => ret false
     | Some feed =>
         match entries feed with
         | [] => ret false
         | entry :: _ =>
             let title := default "No title" (entry !! "title") in
             let link := default "" (entry !! "link") in
             let summary :=
               clean_html (default (default "" (entry !! "description"))
                                   (entry !! "summary")) in
             let published :=
               default (default "" (entry !! "updated")) (entry !! "published") in
             let thumbnail_url := get_entry_thumbnail entry in
             let embed :=
               create_feed_embed title link summary category published thumbnail_url in
             try_except (send_dm bot user_id embed;; ret true) (fun _ => ret false)
         end
     end)
    (fun _ => ret false).

(** ** ai_summary.py: the daily sweep *)

Definition send_daily_summaries (bot : Bot) : Py unit :=
  try_except
    (active ← get_all_active_users;
     for_each active (fun user =>
       uid ← getitem user "uid";
       uid ← as_uid uid;
       unread_count ← get_unread_count uid;
       if Z.eqb unread_count 0 then ret tt
       else send_sum_to_user bot uid true;; ret tt))
    (fun _ => ret tt).

(** ** utils.py: truncation *)

(** [c.isspace()] for the characters of ASCII. *)
Definition is_space (c : ascii) : bool :=
  let n := nat_of_ascii c in
  (Nat.leb 9 n && Nat.leb n 13) || (Nat.leb 28 n && Nat.leb n 32).

(** [s.rstrip()]. *)
Fixpoint str_rstrip (s : string) : string :=
  match s with
  | EmptyString => EmptyString
  | String c rest =>
      match str_rstrip rest with
      | EmptyString => if is_space c then EmptyString else String c EmptyString
      | kept => String c kept
      end
  end.

Fixpoint str_take (n : nat) (s : string) : string :=
  match n, s with
  | S n', String c rest => String c (str_take n' rest)
  | _, _ => EmptyString
  end.

(** [s[:n]]: a negative bound counts from the end. *)
Definition py_slice_to (n : Z) (s : string) : string :=
  if n <? 0 then str_take (Z.to_nat (Z.of_nat (String.length s) + n)) s
  else str_take (Z.to_nat n) s.

Definition truncate_text `{Utils} (text : string) (max_length : Z) : string :=
  if String.eqb text "" then ""
  else
    let text := clean_html text in
    if Z.of_nat (String.length text) <=? max_length then text
    else str_rstrip (py_slice_to (max_length - 3) text) +:+ "...".

(** ** Words of the properties of the user table *)

(** The record [get_user] builds from a row, when its JSON columns parse. *)
Definition parse_user (row : user_row) : option pydict :=
  match u_cats row with
  | Unparsable => None
  | Encodes cats =>
      match u_keywords row with
      | Some Unparsable => None
      | Some (Encodes keywords) =>
          Some [("uid", PInt (u_uid row)); ("uname", PStr (u_uname row));
                ("cats", cats); ("keywords", keywords);
                ("created_at", PStr (u_created_at row))]
      | None =>
          Some [("uid", PInt (u_uid row)); ("uname", PStr (u_uname row));
                ("cats", cats); ("keywords", PList []);
                ("created_at", PStr (u_created_at row))]
      end
  end.

(** The row of [uid]. *)
Definition user_row_of (uid : Z) (w : World) : option user_row :=
  List.find (fun r => Z.eqb (u_uid r) uid) (users w).

(** [uid] is a key of [users]. *)
Definition users_keyed (w : World) : Prop := NoDup (map u_uid (users w)).

(** The keyword list after [keyword] has been added to the texts [kws]. *)
Definition with_keyword (keyword : string) (kws : list string) : list string :=
  if existsb (String.eqb (str_lower keyword)) (map str_lower kws)
  then kws else kws ++ [str_lower keyword].

Definition bob : user_row := user_with_keywords 2 (PList [PStr "rust"]).

(** ** Words of the push property *)

(** Whether the keyword filter of [uid] lets the post through in [w]. *)
Definition passes (uid : Z) (title summary : string) (w : World) : bool :=
  match fst (should_show_post uid title summary w) with
  | Ok shown => shown
  | Raise _ => true
  end.

(** The recipients reached when messages go out to [recipients] in turn
    under the fault schedule [flags]. *)
Fixpoint reached (recipients : list Z) (flags : list bool) : list Z :=
  match recipients with
  | [] => []
  | uid :: rest =>
      match flags with
      | [] => uid :: reached rest []
      | failed :: flags' =>
          if failed then reached rest flags' else uid :: reached rest flags'
      end
  end.

(** * The catalogue of feeds and the poll cycle *)

(** ** State and exceptions over any state *)

Definition SE (S A : Type) : Type := S -> result A * S.

Definition se_ret {S A} (a : A) : SE S A := fun s => (Ok a, s).

Definition se_raise {S A} (e : exn) : SE S A := fun s => (Raise e, s).

Definition se_bind {S A B} (m : SE S A) (k : A -> SE S B) : SE S B :=
  fun s => match m s with
           | (Ok a, s') => k a s'
           | (Raise e, s') => (Raise e, s')
           end.

Definition se_try {S A} (m : SE S A) (h : exn -> SE S A) : SE S A :=
  fun s => match m s with
           | (Ok a, s') => (Ok a, s')
           | (Raise e, s') => h e s'
           end.

(** ** Plain helpers of the catalogue *)

(** [ORDER BY cat]. *)
Fixpoint insert_asc (x : string) (sorted : list string) : list string :=
  match sorted with
  | [] => [x]
  | y :: rest => if String.leb x y then x :: sorted else y :: insert_asc x rest
  end.

Definition order_by_text (xs : list string) : list string := foldr insert_asc [] xs.

(** [for cat, url in all_feeds: if url == feed_url: category = cat; break]. *)
Fixpoint category_of_url (feed_url : string) (all_feeds : list (string * string))
    : option string :=
  match all_feeds with
  | [] => None
  | (cat, url) :: rest =>
      if String.eqb url feed_url then Some cat else category_of_url feed_url rest
  end.

(** [feeds_by_cat[cat].append(url)], the categories in the order in which
    they first occur. *)
Fixpoint group_feed (cat url : string) (groups : list (string * list string))
    : list (string * list string) :=
  match groups with
  | [] => [(cat, [url])]
  | (c, urls) :: rest =>
      if String.eqb c cat then (c, urls ++ [url]) :: rest
      else (c, urls) :: group_feed cat url rest
  end.

Definition feeds_by_cat (all_feeds : list (string * string))
    : list (string * list string) :=
  fold_left (fun groups '(cat, url) => group_feed cat url groups) all_feeds [].

(** The names bound at module level in db.py. *)
Definition db_names : list string :=
  ["aiosqlite"; "json"; "logging"; "datetime"; "log"; "DB_PATH"; "init_db";
   "add_user"; "get_user"; "update_user_subscriptions"; "add_user_keyword";
   "get_all_users"; "add_category"; "get_all_categories"; "delete_category";
   "add_feed"; "remove_feed"; "get_feeds_by_category"; "get_all_feeds";
   "update_last_seen"; "get_last_seen"; "add_unread_post"; "get_unread_posts";
   "clear_unread_posts"; "get_unread_count"; "trim_unread_posts"].

(** [feeds[cat] = cat_feeds]. *)
Fixpoint dict_set (key : string) (v : pyval) (d : pydict) : pydict :=
  match d with
  | [] => [(key, v)]
  | (k, v0) :: rest =>
      if String.eqb k key then (k, v) :: rest else (k, v0) :: dict_set key v rest
  end.

(** [sum(len(feed_list) for feed_list in feeds.values())]. *)
Fixpoint sum_lens (values : list pyval) : Py Z :=
  match values with
  | [] => ret 0
  | v :: rest => n ← py_len v; total ← sum_lens rest; ret (n + total)
  end.

(** [d.values()]. *)
Definition py_values (v : pyval) : Py (list pyval) :=
  match v with
  | PDict d => ret (map snd d)
  | _ => raise (AttributeError "values")
  end.

Section Catalogue.

#[local] Instance SE_ret {S} : MRet (SE S) := @se_ret S.
#[local] Instance SE_bind {S} : MBind (SE S) := fun A B k m => se_bind m k.

Definition se_get {S} : SE S S := fun s => (Ok s, s).
Definition se_modify {S} (f : S -> S) : SE S unit := fun s => (Ok tt, f s).

Fixpoint se_for_each {S A} (xs : list A) (body : A -> SE S unit) : SE S unit :=
  match xs with
  | [] => se_ret tt
  | x :: rest => se_bind (body x) (fun _ => se_for_each rest body)
  end.

(** A computation on a part of the state, run on the whole. *)
Definition zoom {S T A} (get : S -> T) (set : T -> S -> S) (m : SE T A) : SE S A :=
  fun s => let (r, t') := m (get s) in (r, set t' s).

(** ** Tables *)

(** Tables [categories] and [feeds]. The [id] columns, which no statement
    of the program reads, are left out. No connection of the program
    switches foreign keys on, so the references between the tables are
    not enforced. *)
Record category_row := {
  c_cat : string;
  c_created_at : string
}.

Record feed_row := {
  f_cat : string;
  f_url : string;
  f_added_at : string
}.

Record Site := {
  world : World;
  categories : list category_row;
  feeds : list feed_row
}.

Definition set_world (w : World) (s : Site) : Site :=
  {| world := w; categories := categories s; feeds := feeds s |}.

Definition set_categories (cs : list category_row) (s : Site) : Site :=
  {| world := world s; categories := cs; feeds := feeds s |}.

Definition set_feeds (fs : list feed_row) (s : Site) : Site :=
  {| world := world s; categories := categories s; feeds := fs |}.

Abbreviation PyS := (SE Site).

(** A coroutine of the earlier sections, run on the site. *)
Definition on_world {A} (m : Py A) : PyS A := zoom world set_world m.

(** [await asyncio.sleep(seconds)]. *)
Definition asyncio_sleep {S} : SE S unit := se_ret tt.

(** ** db.py: categories and feeds *)

Definition has_category (cat : string) (cs : list category_row) : bool :=
  existsb (fun c => String.eqb (c_cat c) cat) cs.

(** [INSERT OR IGNORE INTO categories]: [cat] is UNIQUE. *)
Definition add_category (cat : string) : PyS bool :=
  se_try
    (on_world connect;;
     now ← on_world utcnow;
     se_modify (fun s =>
       if has_category cat (categories s) then s
       else set_categories (categories s ++ [{| c_cat := cat; c_created_at := now |}]) s);;
     se_ret true)
    (fun _ => se_ret false).

Definition get_all_categories : PyS (list string) :=
  se_try
    (on_world connect;;
     s ← se_get;
     se_ret (order_by_text (map c_cat (categories s))))
    (fun _ => se_ret []).

Definition delete_category (cat : string) : PyS bool :=
  se_try
    (on_world connect;;
     se_modify (fun s =>
       set_feeds (List.filter (fun f => negb (String.eqb (f_cat f) cat)) (feeds s)) s);;
     se_modify (fun s =>
       set_categories
         (List.filter (fun c => negb (String.eqb (c_cat c) cat)) (categories s)) s);;
     se_ret true)
    (fun _ => se_ret false).

Definition has_feed (cat url : string) (fs : list feed_row) : bool :=
  existsb (fun f => String.eqb (f_cat f) cat && String.eqb (f_url f) url) fs.

(** [INSERT OR IGNORE INTO feeds]: the pair [(cat, url)] is UNIQUE. The
    category is added first, over a connection of its own. *)
Definition add_feed (cat url : string) : PyS bool :=
  se_try
    (on_world connect;;
     add_category cat;;
     now ← on_world utcnow;
     se_modify (fun s =>
       if has_feed cat url (feeds s) then s
       else set_feeds (feeds s ++ [{| f_cat := cat; f_url := url; f_added_at := now |}]) s);;
     se_ret true)
    (fun _ => se_ret false).

Definition remove_feed (cat url : string) : PyS bool :=
  se_try
    (on_world connect;;
     se_modify (fun s =>
       set_feeds
         (List.filter (fun f => negb (String.eqb (f_cat f) cat && String.eqb (f_url f) url))
                      (feeds s)) s);;
     se_ret true)
    (fun _ => se_ret false).

(** Neither listing has an [ORDER BY]: the order of its rows is up to the
    storage engine. The rows are listed here in the order of insertion,
    and the properties below speak of membership only. *)
Definition get_feeds_by_category (cat : string) : PyS (list string) :=
  se_try
    (on_world connect;;
     s ← se_get;
     se_ret (map f_url (List.filter (fun f => String.eqb (f_cat f) cat) (feeds s))))
    (fun _ => se_ret []).

Definition get_all_feeds : PyS (list (string * string)) :=
  se_try
    (on_world connect;;
     s ← se_get;
     se_ret (map (fun f => (f_cat f, f_url f)) (feeds s)))
    (fun _ => se_ret []).

(** ** feed_manager.py: the poll cycle *)

(** A loop that adds up what its body returns. *)
Fixpoint se_sum_each {S A} (xs : list A) (body : A -> SE S Z) (total : Z) : SE S Z :=
  match xs with
  | [] => se_ret total
  | x :: rest => se_bind (body x) (fun n => se_sum_each rest body (total + n))
  end.

Definition check_all_feeds `{Utils} (bot_instance : option Bot) : PyS unit :=
  se_try
    (all_feeds ← get_all_feeds;
     se_sum_each all_feeds
       (fun '(category, feed_url) =>
          new_count ← on_world (process_feed category feed_url bot_instance);
          asyncio_sleep;;
          se_ret new_count) 0;;
     se_ret tt)
    (fun _ => se_ret tt).

Definition manual_feed_check `{Utils} (category feed_url : option string)
    (bot_instance : option Bot) : PyS pydict :=
  se_try
    (if truthy_id feed_url then
       let feed_url := default "" feed_url in
       category ← (if negb (truthy_id category) then
                     all_feeds ← get_all_feeds;
                     se_ret (category_of_url feed_url all_feeds)
                   else se_ret category);
       if negb (truthy_id category)
       then se_ret [("error", PStr "Feed URL not found")]
       else
         let category := default "" category in
         new_count ← on_world (process_feed category feed_url bot_instance);
         se_ret [("success", PBool true); ("category", PStr category);
                 ("feed_url", PStr feed_url); ("new_entries", PInt new_count)]
     else if truthy_id category then
       let category := default "" category in
       urls ← get_feeds_by_category category;
       total_new ← se_sum_each urls
                     (fun feed_url =>
                        new_count ← on_world (process_feed category feed_url bot_instance);
                        asyncio_sleep;;
                        se_ret new_count) 0;
       se_ret [("success", PBool true); ("category", PStr category);
               ("feeds_checked", PInt (Z.of_nat (length urls)));
               ("new_entries", PInt total_new)]
     else
       check_all_feeds bot_instance;;
       se_ret [("success", PBool true); ("message", PStr "All feeds checked")])
    (fun e => se_ret [("error", PStr (exn_str e))]).

Definition send_category_previews `{Utils} (bot : Bot) (user_id : Z)
    (categories : list string) : PyS Z :=
  se_try
    (se_sum_each categories
       (fun category =>
          urls ← get_feeds_by_category category;
          se_sum_each urls
            (fun feed_url =>
               success ← on_world (send_latest_feed_preview bot user_id category feed_url);
               asyncio_sleep;;
               se_ret (if success : bool then 1 else 0)) 0) 0)
    (fun _ => se_ret 0).

(** ** feed_manager.py: the first fill of the mailboxes *)

(** The site together with the local counter [total_posts] of
    [populate_initial_posts], which is advanced inside [try] blocks and
    keeps what it has counted when one of them is left by an exception. *)
Record Frame := {
  site : Site;
  total_posts : Z
}.

Definition set_site (s : Site) (f : Frame) : Frame :=
  {| site := s; total_posts := total_posts f |}.

Definition on_site {A} (m : PyS A) : SE Frame A := zoom site set_site m.

Definition in_frame {A} (m : Py A) : SE Frame A := on_site (on_world m).

Definition populate_frame `{Utils} (bot_instance : option Bot) : SE Frame Z :=
  se_try
    (all_feeds ← on_site get_all_feeds;
     se_for_each (feeds_by_cat all_feeds) (fun '(cat, feed_urls) =>
       users ← in_frame (get_users_by_cat cat);
       if negb (nonempty users) then se_ret tt
       else
         se_for_each feed_urls (fun url =>
           se_try
             (feed ← in_frame (fetch_feed url);
              match feed with
              | None => se_ret tt
              | Some feed =>
                  if negb (nonempty (entries feed)) then se_ret tt
                  else
                    se_for_each (take 10 (entries feed)) (fun ent =>
                      let title := default "No title" (ent !! "title") in
                      let link := default "" (ent !! "link") in
                      let summary :=
                        clean_html (default (default "" (ent !! "description"))
                                            (ent !! "summary")) in
                      let published :=
                        default (default "" (ent !! "updated")) (ent !! "published") in
                      se_for_each users (fun user =>
                        uid ← in_frame (getitem user "user_id");
                        uid ← in_frame (as_uid uid);
                        show ← in_frame (should_show_post uid title summary);
                        if show : bool then
                          in_frame (add_unread_post uid cat title link published summary);;
                          se_modify (fun f =>
                            {| site := site f; total_posts := total_posts f + 1 |})
                        else se_ret tt);;
                      se_for_each users (fun user =>
                        uid ← in_frame (getitem user "user_id");
                        uid ← in_frame (as_uid uid);
                        in_frame (trim_unread_posts uid cat 10);;
                        se_ret tt))
              end)
             (fun _ => se_ret tt)));;
     f ← se_get;
     se_ret (total_posts f))
    (fun _ => se_ret 0).

Definition populate_initial_posts `{Utils} (bot_instance : option Bot) : PyS Z :=
  fun s => let (r, f) := populate_frame bot_instance {| site := s; total_posts := 0 |} in
           (r, site f).

(** ** user_manager.py: what a user sees of the catalogue *)

(** [await db.<name>(cat)] where the urls of a category are expected. *)
Definition db_resolve_feeds (name : string) (cat : pyval) : PyS (list string) :=
  if negb (existsb (String.eqb name) db_names)
  then se_raise (AttributeError name)
  else if String.eqb name "get_feeds_by_category"
       then cat ← on_world (as_key cat); get_feeds_by_category cat
       else se_raise (TypeError "not a feed listing").

Fixpoint collect_feeds (cats : list pyval) (feeds : pydict) : PyS pydict :=
  match cats with
  | [] => se_ret feeds
  | cat :: rest =>
      cat_feeds ← db_resolve_feeds "get_feeds_by_cat" cat;
      if nonempty cat_feeds then
        key ← on_world (as_key cat);
        collect_feeds rest (dict_set key (PList (map PStr cat_feeds)) feeds)
      else collect_feeds rest feeds
  end.

Definition get_user_feeds (uid : Z) : PyS pyval :=
  se_try
    (cats ← on_world (get_user_cats uid);
     cats ← on_world (py_iter cats);
     feeds ← collect_feeds cats [];
     se_ret (PDict feeds))
    (fun _ => se_ret (PDict [])).

Definition get_user_stats (uid : Z) : PyS pydict :=
  se_try
    (user ← on_world (get_user uid);
     match user with
     | None => se_ret []
     | Some u =>
         cats ← on_world (getitem u "subscribed_cats");
         feeds ← get_user_feeds uid;
         values ← on_world (py_values feeds);
         total_feeds ← on_world (sum_lens values);
         unread_count ← on_world (get_unread_count uid);
         keywords ← on_world (getitem u "keywords");
         uname ← on_world (getitem u "uname");
         cats_count ← on_world (py_len cats);
         keywords_count ← on_world (py_len keywords);
         created_at ← on_world (getitem u "created_at");
         se_ret [("uname", uname); ("cats_count", PInt cats_count); ("cats", cats);
                 ("feeds_count", PInt total_feeds); ("unread_count", PInt unread_count);
                 ("keywords_count", PInt keywords_count); ("keywords", keywords);
                 ("created_at", created_at)]
     end)
    (fun _ => se_ret []).

End Catalogue.

(** ** Concrete sites *)

Definition make_site (w : World) (fs : list (string * string)) : Site :=
  {| world := w;
     categories := map (fun f => {| c_cat := fst f; c_created_at := "2023-11-01T00:00:00" |}) fs;
     feeds := map (fun f => {| f_cat := fst f; f_url := snd f;
                               f_added_at := "2023-11-01T00:00:00" |}) fs |}.

(** ** Words of the cycle properties *)

(** The world after one poll of [url]. *)
Definition poll_world (url : string) (w : World) : World :=
  match upstream w url with
  | Some feed => snd (get_new_entries url feed w)
  | None => w
  end.

(** The world after polling the listed feeds in turn. *)
Definition cycle_world (all_feeds : list (string * string)) (w : World) : World :=
  fold_left (fun w f => poll_world (snd f) w) all_feeds w.

(** The fetch of [url] is not empty and its newest entry derives a
    non-empty id, [newest]. *)
Definition newest_id (w : World) (url newest : string) : Prop :=
  exists feed entry rest,
    upstream w url = Some feed /\ entries feed = entry :: rest
    /\ get_entry_id entry = newest /\ newest <> "".

(** Every listed feed either cannot be fetched, or is empty, or has a
    newest entry with a non-empty id. *)
Definition well_identified (all_feeds : list (string * string)) (w : World) : Prop :=
  forall cat url feed entry rest,
    In (cat, url) all_feeds ->
    upstream w url = Some feed -> entries feed = entry :: rest ->
    get_entry_id entry <> "".

(** * Properties *)

(** ** Running computations *)

(** Closes an equation between closed terms by evaluation. *)
Ltac vm_refl :=
  lazymatch goal with
  | |- ?a = ?b => vm_cast_no_check (@eq_refl _ b)
  end.

Ltac unfold_py :=
  unfold mbind, Py_bind, mret, Py_ret, bind, ret, raise, try_except,
         get_world, modify in *.

Lemma bind_ok {A B} (m : Py A) (k : A -> Py B) w a w' :
  m w = (Ok a, w') -> (x ← m; k x) w = k a w'.
Proof. intros Hm. unfold_py. by rewrite Hm. Qed.

Lemma bind_raise {A B} (m : Py A) (k : A -> Py B) w e w' :
  m w = (Raise e, w') -> (x ← m; k x) w = (Raise e, w').
Proof. intros Hm. unfold_py. by rewrite Hm. Qed.

Lemma try_except_ok {A} (m : Py A) h w a w' :
  m w = (Ok a, w') -> try_except m h w = (Ok a, w').
Proof. intros Hm. unfold try_except. by rewrite Hm. Qed.

Lemma try_except_raise {A} (m : Py A) h w e w' :
  m w = (Raise e, w') -> try_except m h w = h e w'.
Proof. intros Hm. unfold try_except. by rewrite Hm. Qed.

(** ** Storage calls return *)

(** A healthy connection leaves the world as it is. *)
Lemma connect_healthy w : db_faults w = [] -> connect w = (Ok tt, w).
Proof. intros Hf. unfold connect. by rewrite Hf. Qed.

(** A connection changes nothing but the fault schedule. *)
Lemma connect_frame w :
  exists r fs, connect w = (r, set_db_faults fs w).
Proof.
  unfold connect. destruct (db_faults w) as [|f fs] eqn:Hf.
  - exists (Ok tt), []. f_equal. destruct w; simpl in *; by subst.
  - by exists (if f then Raise OperationalError else Ok tt), fs.
Qed.

Lemma get_last_seen_returns url w :
  exists seen fs, get_last_seen url w = (Ok seen, set_db_faults fs w).
Proof.
  unfold get_last_seen. destruct (connect_frame w) as ([[]|e] & fs & Hc).
  - exists (last_entry_id <$> last_seen w !! url), fs.
    unfold_py. by rewrite Hc.
  - exists None, fs. unfold_py. by rewrite Hc.
Qed.

Lemma get_last_seen_healthy url w :
  db_faults w = [] ->
  get_last_seen url w = (Ok (last_entry_id <$> last_seen w !! url), w).
Proof.
  intros Hf. unfold get_last_seen. unfold_py. by rewrite connect_healthy.
Qed.

Lemma update_last_seen_returns url entry_id w :
  exists ok w', update_last_seen url entry_id w = (Ok ok, w')
    /\ unread_posts w' = unread_posts w
    /\ outbox w' = outbox w
    /\ upstream w' = upstream w.
Proof.
  unfold update_last_seen. destruct (connect_frame w) as ([[]|e] & fs & Hc).
  - eexists true, _. unfold_py. rewrite Hc. simpl. done.
  - eexists false, _. unfold_py. rewrite Hc. simpl. done.
Qed.

Lemma update_last_seen_healthy url entry_id w :
  db_faults w = [] ->
  exists w', update_last_seen url entry_id w = (Ok true, w')
    /\ last_seen w' = <[url := {| last_entry_id := entry_id;
                                  last_checked := clock w (clock_reads w) |}]>
                        (last_seen w)
    /\ db_faults w' = []
    /\ upstream w' = upstream w.
Proof.
  intros Hf. unfold update_last_seen, utcnow. unfold_py.
  rewrite connect_healthy by done. simpl. eexists. split; [done|]. simpl. done.
Qed.

(** ** The novelty loop *)

Lemma novelty_loop_no_watermark entry rest :
  novelty_loop None (entry :: rest) None [] = (Some (get_entry_id entry), [entry]).
Proof. reflexivity. Qed.

Lemma novelty_loop_at_watermark seen entry rest :
  get_entry_id entry = seen ->
  novelty_loop (Some seen) (entry :: rest) None [] = (Some (get_entry_id entry), []).
Proof. intros <-. simpl. by rewrite String.eqb_refl. Qed.

(** An absent watermark id lets the loop run to the end of the fetch. *)
Lemma novelty_loop_absent seen feed_entries latest_id new_entries :
  Forall (fun entry => get_entry_id entry <> seen) feed_entries ->
  snd (novelty_loop (Some seen) feed_entries latest_id new_entries)
  = new_entries ++ feed_entries.
Proof.
  intros Habs. revert latest_id new_entries.
  induction Habs as [|entry rest Hne _ IH]; intros latest_id new_entries; simpl.
  - by rewrite app_nil_r.
  - apply String.eqb_neq in Hne. rewrite Hne, IH. by rewrite <- app_assoc.
Qed.

(** Once set, the candidate watermark is not overwritten. *)
Lemma novelty_loop_latest_set seen feed_entries i new_entries :
  fst (novelty_loop seen feed_entries (Some i) new_entries) = Some i.
Proof.
  revert new_entries.
  induction feed_entries as [|e rest IH]; intros acc; simpl; [done|].
  destruct seen as [seen|]; [|done].
  destruct (String.eqb _ _); [done|]. apply IH.
Qed.

(** The first entry of a non-empty fetch names the candidate watermark. *)
Lemma novelty_loop_latest seen entry rest :
  fst (novelty_loop seen (entry :: rest) None []) = Some (get_entry_id entry).
Proof.
  destruct seen as [seen|]; simpl; [|done].
  destruct (String.eqb _ _); [done|]. apply novelty_loop_latest_set.
Qed.

(** [get_new_entries] once the watermark has been read. *)
Lemma get_new_entries_run url feed w seen w1 :
  get_last_seen url w = (Ok seen, w1) ->
  get_new_entries url feed w =
    if negb (nonempty (entries feed)) then (Ok [], w1)
    else
      let r := novelty_loop seen (entries feed) None [] in
      (Ok (snd r),
       if truthy_id (fst r) && nonempty (snd r)
       then snd (update_last_seen url (default "" (fst r)) w1)
       else w1).
Proof.
  intros Hseen. unfold get_new_entries. unfold_py. rewrite Hseen.
  destruct (negb (nonempty (entries feed))); [done|].
  destruct (novelty_loop seen (entries feed) None []) as [latest news]; simpl.
  destruct (truthy_id latest && nonempty news); [|done].
  destruct (update_last_seen_returns url (default "" latest) w1)
    as (ok & w' & Hup & _).
  by rewrite Hup.
Qed.

(** [get_new_entries] never raises. *)
Lemma get_new_entries_returns url feed w :
  exists news w', get_new_entries url feed w = (Ok news, w').
Proof.
  destruct (get_last_seen_returns url w) as (seen & fs & Hseen).
  rewrite (get_new_entries_run _ _ _ _ _ Hseen).
  destruct (negb _); eauto.
Qed.

(** ** The novelty filter *)

(** C3. A feed polled while no watermark is stored, whose fetch is not
    empty, has exactly one entry marked new: the first of the newest-first
    list. *)
Theorem first_poll_marks_newest_only url feed w entry rest :
  fst (get_last_seen url w) = Ok None ->
  entries feed = entry :: rest ->
  fst (get_new_entries url feed w) = Ok [entry].
Proof.
  intros Hnone Hent.
  destruct (get_last_seen_returns url w) as (seen & fs & Hseen).
  rewrite Hseen in Hnone. simpl in Hnone. injection Hnone as ->.
  rewrite (get_new_entries_run _ _ _ _ _ Hseen), Hent. done.
Qed.

Lemma first_poll_marks_newest_only_witness :
  fst (get_new_entries demo_url feed_ba
         (make_world [] ∅ [] 0 [] (Some feed_ba))) = Ok [entry_b].
Proof.
  apply (first_poll_marks_newest_only demo_url feed_ba _ entry_b [entry_a]);
    reflexivity.
Defined.

(** C4, as stated, fails: with the watermark at the id of the last
    (oldest) entry of the fetch, the entries in front of it are new and the
    watermark moves to the newest. *)
Lemma watermark_at_oldest_counterexample :
  last (entries feed_ba) = Some entry_a
  /\ fst (get_last_seen demo_url
            (make_world [] (seen_at "a") [] 0 [] (Some feed_ba)))
     = Ok (Some (get_entry_id entry_a))
  /\ fst (get_new_entries demo_url feed_ba
            (make_world [] (seen_at "a") [] 0 [] (Some feed_ba)))
     = Ok [entry_b]
  /\ last_entry_id <$>
       last_seen (snd (get_new_entries demo_url feed_ba
                         (make_world [] (seen_at "a") [] 0 [] (Some feed_ba))))
       !! demo_url
     = Some "b".
Proof. repeat apply conj; vm_refl. Qed.

(** C4, amended. When the stored watermark is the id of the first (newest)
    entry of the fetch, no entry is new and the watermark table is left as
    it was. *)
Theorem poll_at_watermark_finds_nothing url feed w entry rest :
  entries feed = entry :: rest ->
  fst (get_last_seen url w) = Ok (Some (get_entry_id entry)) ->
  fst (get_new_entries url feed w) = Ok []
  /\ last_seen (snd (get_new_entries url feed w)) = last_seen w.
Proof.
  intros Hent Hw.
  destruct (get_last_seen_returns url w) as (seen & fs & Hseen).
  rewrite Hseen in Hw. simpl in Hw. injection Hw as ->.
  rewrite (get_new_entries_run _ _ _ _ _ Hseen), Hent. simpl.
  rewrite String.eqb_refl. simpl. rewrite andb_false_r. done.
Qed.

Lemma poll_at_watermark_finds_nothing_witness :
  fst (get_new_entries demo_url feed_ba
         (make_world [] (seen_at "b") [] 0 [] (Some feed_ba))) = Ok []
  /\ last_seen (snd (get_new_entries demo_url feed_ba
                       (make_world [] (seen_at "b") [] 0 [] (Some feed_ba))))
     = last_seen (make_world [] (seen_at "b") [] 0 [] (Some feed_ba)).
Proof.
  apply (poll_at_watermark_finds_nothing demo_url feed_ba _ entry_b [entry_a]);
    reflexivity.
Defined.

(** C5. When a watermark is stored and its id is the derived id of no
    fetched entry, the new set is the whole fetched list. *)
Theorem absent_watermark_marks_whole_fetch url feed w seen :
  fst (get_last_seen url w) = Ok (Some seen) ->
  Forall (fun entry => get_entry_id entry <> seen) (entries feed) ->
  fst (get_new_entries url feed w) = Ok (entries feed).
Proof.
  intros Hw Habs.
  destruct (get_last_seen_returns url w) as (seen' & fs & Hseen).
  rewrite Hseen in Hw. simpl in Hw. injection Hw as ->.
  rewrite (get_new_entries_run _ _ _ _ _ Hseen).
  destruct (entries feed) as [|entry rest] eqn:Hent; [done|].
  simpl negb. cbv iota. cbn [fst].
  by rewrite (novelty_loop_absent seen _ None [] Habs).
Qed.

Lemma absent_watermark_marks_whole_fetch_witness :
  fst (get_new_entries demo_url feed_ba
         (make_world [] (seen_at "z") [] 0 [] (Some feed_ba)))
  = Ok [entry_b; entry_a].
Proof.
  apply (absent_watermark_marks_whole_fetch demo_url feed_ba _ "z").
  - reflexivity.
  - repeat constructor; by vm_compute.
Defined.

(** ** One poll of one feed *)

Lemma get_new_entries_frame url feed w :
  let w' := snd (get_new_entries url feed w) in
  unread_posts w' = unread_posts w /\ outbox w' = outbox w
  /\ upstream w' = upstream w.
Proof.
  destruct (get_last_seen_returns url w) as (seen & fs & Hseen).
  rewrite (get_new_entries_run _ _ _ _ _ Hseen).
  destruct (negb _); [done|]. simpl.
  destruct (truthy_id _ && nonempty _); [|done].
  destruct (update_last_seen_returns url
              (default "" (fst (novelty_loop seen (entries feed) None [])))
              (set_db_faults fs w)) as (ok & w' & Hup & ? & ? & ?).
  rewrite Hup. done.
Qed.

(** The module user_manager binds no [get_users_by_category]. *)
Lemma subscriber_resolution_raises category w :
  user_manager_resolve "get_users_by_category" category w
  = (Raise (AttributeError "get_users_by_category"), w).
Proof. reflexivity. Qed.

(** What one call of [process_feed] amounts to: the fetch and the novelty
    filter with its watermark write; whenever entries are new the
    subscriber resolution raises, and the handler returns 0. *)
Lemma process_feed_run `{Utils} category url bot w :
  process_feed category url bot w =
    (Ok 0, match upstream w url with
           | Some feed => snd (get_new_entries url feed w)
           | None => w
           end).
Proof.
  unfold process_feed, fetch_feed. unfold_py.
  destruct (upstream w url) as [feed|]; [|done].
  destruct (get_new_entries_returns url feed w) as (news & w' & Hnew).
  rewrite Hnew. destruct news as [|entry news]; [done|].
  cbn -[user_manager_resolve]. by rewrite subscriber_resolution_raises.
Qed.

Lemma process_feed_frame `{Utils} category url bot w :
  let w' := snd (process_feed category url bot w) in
  unread_posts w' = unread_posts w /\ outbox w' = outbox w
  /\ upstream w' = upstream w.
Proof.
  rewrite process_feed_run. simpl.
  destruct (upstream w url) as [feed|]; [|done].
  apply get_new_entries_frame.
Qed.

(** A poll on healthy storage, in terms of the tables. *)
Lemma get_new_entries_healthy url feed w :
  db_faults w = [] ->
  let r := novelty_loop (last_entry_id <$> last_seen w !! url) (entries feed) None [] in
  let w' := snd (get_new_entries url feed w) in
  fst (get_new_entries url feed w)
    = Ok (if nonempty (entries feed) then snd r else [])
  /\ db_faults w' = []
  /\ (nonempty (entries feed) && truthy_id (fst r) && nonempty (snd r) = true ->
      last_entry_id <$> last_seen w' !! url = Some (default "" (fst r)))
  /\ (nonempty (entries feed) && truthy_id (fst r) && nonempty (snd r) = false ->
      w' = w).
Proof.
  intros Hf. rewrite (get_new_entries_run _ _ _ _ _ (get_last_seen_healthy url w Hf)).
  destruct (nonempty (entries feed)); simpl; [|done].
  destruct (truthy_id _ && nonempty _) eqn:Hup; simpl.
  - destruct (update_last_seen_healthy url
                (default "" (fst (novelty_loop (last_entry_id <$> last_seen w !! url)
                                               (entries feed) None []))) w Hf)
      as (w' & Hrun & Hseen & Hf' & _).
    rewrite Hrun. simpl. rewrite Hseen, lookup_insert_eq. done.
  - done.
Qed.

(** The resolver that is defined finds nobody either: the rows it reads
    carry the key [cats], and it asks for [subscribed_cats]. *)
Example get_users_by_cat_finds_nobody :
  subscribed_to "tech" ann = true
  /\ fst (get_users_by_cat "tech" (make_world [ann] ∅ [] 0 [] (Some feed_ba)))
     = Ok [].
Proof. repeat apply conj; vm_refl. Qed.

(** C1, at a failing input. The user [ann] follows the category, her
    keyword filter passes the new entry, and yet the poll returns 0 and
    leaves her mailbox empty: resolving the subscribers raises before any
    enqueue. *)
Theorem process_feed_drops_new_entry :
  fst (get_new_entries demo_url feed_ba (make_world [ann] ∅ [] 0 [] (Some feed_ba)))
    = Ok [entry_b]
  /\ subscribed_to "tech" ann = true
  /\ fst (should_show_post (u_uid ann) "T2" ""
            (make_world [ann] ∅ [] 0 [] (Some feed_ba))) = Ok true
  /\ fst (process_feed (H := plain_utils) "tech" demo_url None
            (make_world [ann] ∅ [] 0 [] (Some feed_ba))) = Ok 0
  /\ unread_posts
       (snd (process_feed (H := plain_utils) "tech" demo_url None
               (make_world [ann] ∅ [] 0 [] (Some feed_ba)))) = [].
Proof. repeat apply conj; vm_refl. Qed.

(** ** Polling again *)


#[local] Arguments novelty_loop : simpl never.

Lemma truthy_id_Some s : s <> "" -> truthy_id (Some s) = true.
Proof. intros Hs. simpl. apply String.eqb_neq in Hs. by rewrite Hs. Qed.

(** After a poll on healthy storage of a feed whose newest entry has a
    non-empty id, polling the same list again finds nothing and changes
    nothing. *)
Lemma repoll_idle url feed w :
  db_faults w = [] ->
  (forall entry rest, entries feed = entry :: rest -> get_entry_id entry <> "") ->
  let w1 := snd (get_new_entries url feed w) in
  get_new_entries url feed w1 = (Ok [], w1) /\ db_faults w1 = [].
Proof.
  intros Hf Hid.
  destruct (get_new_entries_healthy url feed w Hf) as (Hnews & Hf1 & Hadv & Hsame).
  intros w1. fold w1 in Hf1, Hadv, Hsame.
  destruct (get_new_entries_healthy url feed w1 Hf1) as (Hnews1 & _ & _ & Hsame1).
  split; [|done].
  destruct (entries feed) as [|entry rest] eqn:Hent.
  - simpl in *. rewrite (surjective_pairing (get_new_entries url feed w1)).
    by rewrite Hnews1, Hsame1.
  - specialize (Hid entry rest eq_refl).
    rewrite novelty_loop_latest in Hadv, Hsame.
    rewrite (truthy_id_Some _ Hid) in Hadv, Hsame. simpl in Hadv, Hsame.
    destruct (nonempty (snd (novelty_loop (last_entry_id <$> last_seen w !! url)
                                         (entry :: rest) None []))) eqn:Hfound.
    + rewrite (Hadv eq_refl) in Hnews1, Hsame1. simpl default in *.
      rewrite novelty_loop_at_watermark in Hnews1, Hsame1 by done.
      simpl in Hnews1, Hsame1. rewrite andb_false_r in Hsame1.
      rewrite (surjective_pairing (get_new_entries url feed w1)).
      by rewrite Hnews1, Hsame1.
    + rewrite (Hsame eq_refl) in *. rewrite Hfound in Hsame1.
      rewrite andb_false_r in Hsame1. simpl in Hnews1.
      destruct (snd (novelty_loop _ _ _ _)); [|done].
      rewrite (surjective_pairing (get_new_entries url feed w)).
      by rewrite Hnews1, Hsame1.
Qed.

(** C6, as stated, fails: an item with an empty title and neither guid
    nor link derives the empty id, for which no watermark is written; the
    second poll of the unchanged feed marks it new again. *)
Lemma repoll_untitled_counterexample :
  db_faults (make_world [ann] ∅ [] 0 [] (Some feed_untitled)) = []
  /\ upstream (snd (process_feed (H := plain_utils) "tech" demo_url None
                      (make_world [ann] ∅ [] 0 [] (Some feed_untitled)))) demo_url
     = Some feed_untitled
  /\ fst (get_new_entries demo_url feed_untitled
            (snd (process_feed (H := plain_utils) "tech" demo_url None
                    (make_world [ann] ∅ [] 0 [] (Some feed_untitled)))))
     = Ok [entry_untitled].
Proof. repeat apply conj; vm_refl. Qed.

(** C6, amended. On healthy storage, for a feed whose newest entry has a
    non-empty derived id, a second poll of the unchanged entry list finds
    no new entry, returns 0, and leaves the watermark table and every
    mailbox as the first poll left them. *)
Theorem second_poll_is_idle `{Utils} category url bot w :
  db_faults w = [] ->
  (forall feed entry rest,
     upstream w url = Some feed -> entries feed = entry :: rest ->
     get_entry_id entry <> "") ->
  upstream (snd (process_feed category url bot w)) = upstream w
  /\ (forall feed,
        upstream w url = Some feed ->
        fst (get_new_entries url feed (snd (process_feed category url bot w)))
        = Ok [])
  /\ fst (process_feed category url bot (snd (process_feed category url bot w)))
     = Ok 0
  /\ last_seen (snd (process_feed category url bot
                       (snd (process_feed category url bot w))))
     = last_seen (snd (process_feed category url bot w))
  /\ unread_posts (snd (process_feed category url bot
                          (snd (process_feed category url bot w))))
     = unread_posts (snd (process_feed category url bot w)).
Proof.
  intros Hf Hid.
  destruct (process_feed_frame category url bot w) as (_ & _ & Hup).
  split; [done|].
  rewrite (process_feed_run category url bot (snd (process_feed category url bot w))).
  rewrite Hup. rewrite (process_feed_run category url bot w). simpl.
  destruct (upstream w url) as [feed|] eqn:Hfeed.
  - destruct (repoll_idle url feed w Hf (fun entry rest => Hid feed entry rest eq_refl))
      as [Hidle _]. simpl in Hidle.
    rewrite Hidle. simpl. split; [|done].
    intros feed' [= <-]. by rewrite Hidle.
  - done.
Qed.

Lemma second_poll_is_idle_witness :
  fst (get_new_entries demo_url feed_ba
         (snd (process_feed (H := plain_utils) "tech" demo_url None
                 (make_world [ann] ∅ [] 0 [] (Some feed_ba))))) = Ok [].
Proof.
  refine (proj1 (proj2 (second_poll_is_idle (H := plain_utils) "tech" demo_url None
                          (make_world [ann] ∅ [] 0 [] (Some feed_ba)) _ _))
                feed_ba _).
  - reflexivity.
  - intros feed entry rest Hfeed Hent. vm_compute in Hfeed.
    injection Hfeed as <-. injection Hent as <- _. by vm_compute.
  - reflexivity.
Defined.




(** ** Text *)

Lemma append_String c s t : String c s +:+ t = String c (s +:+ t).
Proof. reflexivity. Qed.

Lemma append_empty t : "" +:+ t = t.
Proof. reflexivity. Qed.





(** ** The keyword filter *)

(** A handler that returns a default makes the whole block return. *)
Lemma try_except_default_returns {A} (m : Py A) (d : A) w :
  exists a w', try_except m (fun _ => ret d) w = (Ok a, w').
Proof. unfold try_except. destruct (m w) as [[a|e] w']; eauto. Qed.






(** The examples of the design document. *)
Example keyword_filter_examples :
  fst (should_show_post 2 "Rust 2.0 released" ""
         (make_world [user_with_keywords 2 (PList [PStr "rust"])] ∅ [] 0 [] None))
    = Ok true
  /\ fst (should_show_post 2 "Go 1.22" ""
            (make_world [user_with_keywords 2 (PList [PStr "rust"])] ∅ [] 0 [] None))
     = Ok false
  /\ fst (should_show_post 1 "Rust 2.0 released" ""
            (make_world [ann] ∅ [] 0 [] None)) = Ok true
  /\ fst (should_show_post 1 "Go 1.22" "" (make_world [ann] ∅ [] 0 [] None))
     = Ok true.
Proof. repeat apply conj; vm_refl. Qed.

(** [should_show_post] never raises. *)
Lemma should_show_post_returns uid title summary w :
  exists shown w', should_show_post uid title summary w = (Ok shown, w').
Proof. apply try_except_default_returns. Qed.

(** A failed connection makes the keyword lookup come back empty. *)
Lemma get_user_keywords_storage_fault uid w fs :
  db_faults w = true :: fs ->
  fst (get_user_keywords uid w) = Ok (PList []).
Proof.
  intros Hf. unfold get_user_keywords, get_user, connect. unfold_py.
  by rewrite Hf.
Qed.

(** A keyword column that does not parse makes the lookup come back
    empty as well. *)
Lemma get_user_keywords_unparsable uid w row :
  List.find (fun r => Z.eqb (u_uid r) uid) (users w) = Some row ->
  u_keywords row = Some Unparsable ->
  fst (get_user_keywords uid w) = Ok (PList []).
Proof.
  intros Hrow Hkw. unfold get_user_keywords, get_user, keywords_of_row.
  unfold_py. destruct (connect w) as [[[]|e] w1] eqn:Hc; [|done].
  destruct (connect_frame w) as (r & fs & Hc'). rewrite Hc in Hc'.
  injection Hc' as _ ->. simpl. rewrite Hrow, Hkw.
  destruct (json_loads (u_cats row) _) as [[cats|e] w2]; done.
Qed.

(** C8. Whenever the evaluation of the filter raises, and likewise when
    the keyword lookup fails in storage or the stored keywords do not
    parse, [should_show_post] returns true. *)
Theorem should_show_post_fails_open uid title summary w :
  (exists e, fst (should_show_post_body uid title summary w) = Raise e)
  \/ hd false (db_faults w) = true
  \/ (exists row, List.find (fun r => Z.eqb (u_uid r) uid) (users w) = Some row
                  /\ u_keywords row = Some Unparsable) ->
  fst (should_show_post uid title summary w) = Ok true.
Proof.
  intros [[e Hraise]|[Hfault|(row & Hrow & Hkw)]].
  - unfold should_show_post, try_except.
    destruct (should_show_post_body uid title summary w) as [[shown|e'] w'];
      [done|done].
  - destruct (db_faults w) as [|f fs] eqn:Hf; [done|]. simpl in Hfault. subst f.
    pose proof (get_user_keywords_storage_fault uid w fs Hf) as Hkw.
    unfold should_show_post, should_show_post_body. unfold_py.
    destruct (get_user_keywords uid w) as [[v|e] w1]; simpl in Hkw; [|done].
    by injection Hkw as ->.
  - pose proof (get_user_keywords_unparsable uid w row Hrow Hkw) as Hkws.
    unfold should_show_post, should_show_post_body. unfold_py.
    destruct (get_user_keywords uid w) as [[v|e] w1]; simpl in Hkws; [|done].
    by injection Hkws as ->.
Qed.

Lemma should_show_post_fails_open_witness :
  fst (should_show_post 2 "Go 1.22" ""
         (make_world [user_with_keywords 2 (PList [PInt 5])] ∅ [] 0 [] None))
  = Ok true.
Proof.
  apply (should_show_post_fails_open 2 "Go 1.22" ""
           (make_world [user_with_keywords 2 (PList [PInt 5])] ∅ [] 0 [] None)).
  left. exists (AttributeError "lower"). reflexivity.
Defined.

(** The other two causes at concrete inputs: a failing connection, and
    the same user with a healthy one for contrast. *)
Example should_show_post_storage_fault :
  fst (should_show_post 2 "Go 1.22" ""
         (make_world [user_with_keywords 2 (PList [PStr "rust"])] ∅ [] 0 [true] None))
    = Ok true
  /\ fst (should_show_post 2 "Go 1.22" ""
            (make_world [user_with_keywords 2 (PList [PStr "rust"])] ∅ [] 0 [] None))
     = Ok false.
Proof. repeat apply conj; vm_refl. Qed.

(** ** Order of creation times *)

Lemma ascii_compare_N a b :
  Ascii.compare a b = N.compare (N_of_ascii a) (N_of_ascii b).
Proof. reflexivity. Qed.

Lemma str_compare_cons c1 s1 c2 s2 :
  String.compare (String c1 s1) (String c2 s2)
  = match Ascii.compare c1 c2 with
    | Eq => String.compare s1 s2
    | other => other
    end.
Proof. reflexivity. Qed.

Lemma str_leb_trans s1 s2 s3 :
  String.leb s1 s2 = true -> String.leb s2 s3 = true -> String.leb s1 s3 = true.
Proof.
  unfold String.leb. revert s2 s3.
  induction s1 as [|c1 s1 IH]; intros [|c2 s2] [|c3 s3]; try done.
  rewrite !str_compare_cons, !ascii_compare_N.
  destruct (N.compare_spec (N_of_ascii c1) (N_of_ascii c2)) as [H12|H12|H12];
    destruct (N.compare_spec (N_of_ascii c2) (N_of_ascii c3)) as [H23|H23|H23];
    destruct (N.compare_spec (N_of_ascii c1) (N_of_ascii c3)) as [H13|H13|H13];
    try done; try lia.
  apply IH.
Qed.

Lemma newer_or_same_trans x y z :
  newer_or_same x y -> newer_or_same y z -> newer_or_same x z.
Proof. unfold newer_or_same. eauto using str_leb_trans. Qed.

Lemma newer_or_same_total x y : newer_or_same x y \/ newer_or_same y x.
Proof. unfold newer_or_same. destruct (String.leb_total (p_created_at y) (p_created_at x)); eauto. Qed.

(** ** ORDER BY *)

Lemma insert_desc_perm r sorted : Permutation (insert_desc r sorted) (r :: sorted).
Proof.
  induction sorted as [|r' rest IH]; simpl; [done|].
  destruct (String.leb _ _); [done|].
  rewrite IH. apply perm_swap.
Qed.

Lemma order_by_perm rows : Permutation (order_by_created_at_desc rows) rows.
Proof.
  induction rows as [|r rows IH]; simpl; [done|].
  unfold order_by_created_at_desc in *. simpl.
  rewrite insert_desc_perm. by constructor.
Qed.

Lemma insert_desc_sorted r sorted :
  StronglySorted newer_or_same sorted ->
  StronglySorted newer_or_same (insert_desc r sorted).
Proof.
  induction 1 as [|r' rest Hrest IH Hall]; simpl.
  - repeat constructor.
  - destruct (String.leb (p_created_at r') (p_created_at r)) eqn:Hle.
    + constructor; [by constructor|]. constructor; [done|].
      eapply Forall_impl; [exact Hall|]. intros z Hz.
      by apply (newer_or_same_trans r r' z).
    + constructor; [done|].
      apply List.Forall_forall. intros z Hz.
      apply (Permutation_in _ (insert_desc_perm r rest)) in Hz.
      destruct Hz as [<-|Hz].
      * destruct (newer_or_same_total r r') as [Hge|Hge]; [|done].
        unfold newer_or_same in Hge. congruence.
      * by apply (proj1 (List.Forall_forall _ _) Hall).
Qed.

Lemma order_by_sorted rows :
  StronglySorted newer_or_same (order_by_created_at_desc rows).
Proof.
  induction rows as [|r rows IH]; [constructor|].
  by apply insert_desc_sorted.
Qed.


(** ** Trimming a mailbox *)



Lemma keyed_filter (p : unread_row -> bool) rows :
  NoDup (map p_id rows) -> NoDup (map p_id (List.filter p rows)).
Proof.
  induction rows as [|r rows IH]; simpl; [done|].
  intros [Hnotin Hnd]%NoDup_cons. destruct (p r); simpl; [|by apply IH].
  apply NoDup_cons. split; [|by apply IH].
  intros Hin. apply Hnotin.
  apply list_elem_of_In, in_map_iff in Hin as (x & Hid & Hx).
  apply filter_In in Hx as [Hx _].
  apply list_elem_of_In, in_map_iff. eauto.
Qed.





(** ** Enqueue, then trim *)

Lemma add_unread_post_keyed uid cat title link published summary w :
  unread_posts_keyed w ->
  exists ok w', add_unread_post uid cat title link published summary w = (Ok ok, w')
                /\ unread_posts_keyed w'.
Proof.
  intros [Hnd Hle]. unfold add_unread_post, utcnow.
  destruct (connect_frame w) as ([[]|e] & fs & Hc); unfold_py; rewrite Hc.
  - eexists true, _. split; [done|]. split; simpl.
    + rewrite map_app. simpl. apply NoDup_app. split; [done|]. split.
      * intros i Hi Hnew. apply list_elem_of_singleton in Hnew. subst i.
        apply list_elem_of_In, in_map_iff in Hi as (r & Hid & Hr).
        apply (proj1 (List.Forall_forall _ _) Hle) in Hr. lia.
      * apply NoDup_singleton.
    + apply Forall_app. split.
      * eapply Forall_impl; [exact Hle|]. simpl. intros; lia.
      * constructor; [simpl; lia|done].
  - by eexists false, _.
Qed.







(** The same run, spelled out: of three posts the two created last stay,
    and the other category keeps its post. *)
Example trim_keeps_newest_run :
  map p_title
    (unread_posts
       (snd (trim_unread_posts 1 "tech" 2
               (snd (enqueue_all
                       [post_for 1 "tech" "first"; post_for 1 "news" "other";
                        post_for 1 "tech" "second"; post_for 1 "tech" "third"]
                       (make_world [ann] ∅ [] 0 [] None))))))
  = ["other"; "second"; "third"].
Proof. vm_refl. Qed.

(** ** The summary and the mailbox *)

Lemma keeps_mail_refl w : keeps_mail w w.
Proof. done. Qed.

Lemma keeps_mail_trans w1 w2 w3 :
  keeps_mail w1 w2 -> keeps_mail w2 w3 -> keeps_mail w1 w3.
Proof. intros [? ?] [? ?]. split; congruence. Qed.

Lemma getitem_pure d key w : snd (getitem d key w) = w.
Proof. unfold getitem. by destruct (dict_get d key). Qed.

Lemma for_each_pure {A} (body : A -> Py unit) xs :
  (forall x w, snd (body x w) = w) ->
  forall w, snd (for_each xs body w) = w.
Proof.
  intros Hbody. induction xs as [|x xs IH]; intros w; [done|].
  simpl. unfold_py. specialize (Hbody x w).
  destruct (body x w) as [[[]|e] w1]; simpl in Hbody; subst w1; [apply IH|done].
Qed.

(** Rows read back from [unread_posts] carry the key [cat], and no key
    [category_name]. *)
Lemma row_to_post_no_category_name row :
  dict_get (row_to_post row) "category_name" = None.
Proof. reflexivity. Qed.

Lemma get_unread_posts_run uid limit w :
  exists posts fs,
    get_unread_posts uid limit w = (Ok posts, set_db_faults fs w)
    /\ Forall (fun post => dict_get post "category_name" = None) posts.
Proof.
  unfold get_unread_posts.
  destruct (connect_frame w) as ([[]|e] & fs & Hc); unfold_py; rewrite Hc.
  - eexists _, fs. split; [done|]. simpl.
    apply Forall_fmap, Forall_true. intros row. apply row_to_post_no_category_name.
  - by eexists [], fs.
Qed.

Lemma get_user_run uid w :
  exists user fs, get_user uid w = (Ok user, set_db_faults fs w).
Proof.
  unfold get_user, keywords_of_row, json_loads.
  destruct (connect_frame w) as ([[]|e] & fs & Hc); unfold_py; rewrite Hc.
  - simpl. destruct (List.find _ _) as [row|]; [|by eexists _, fs].
    destruct (u_cats row); [by eexists _, fs|].
    destruct (u_keywords row) as [[|kw]|]; by eexists _, fs.
  - by eexists None, fs.
Qed.

Lemma generate_sum_pure posts w : snd (generate_sum posts w) = w.
Proof.
  unfold generate_sum. unfold_py.
  destruct (g4f_initialized w); simpl; [|done].
  destruct posts as [|post posts]; simpl; [done|].
  change (snd (try_except
                 (for_each (post :: posts)
                    (fun post => getitem post "category_name";; ret tt);;
                  for_each (post :: posts)
                    (fun post => getitem post "title";; getitem post "link";; ret tt);;
                  chat_completion)
                 (fun e => ret ("Error generating sum: " +:+ exn_str e)) w) = w).
  unfold try_except. unfold_py.
  pose proof (for_each_pure
                (fun post : pydict => getitem post "category_name";; ret tt)
                (post :: posts)) as H1.
  pose proof (for_each_pure
                (fun post : pydict => getitem post "title";; getitem post "link";; ret tt)
                (post :: posts)) as H2.
  unfold_py.
  assert (Hb1 : forall (x : pydict) w0,
            snd (match getitem x "category_name" w0 with
                 | (Ok _, w') => (Ok tt, w')
                 | (Raise e, w') => (Raise e, w')
                 end) = w0).
  { intros x w0. pose proof (getitem_pure x "category_name" w0).
    destruct (getitem x "category_name" w0) as [[|] ?]; done. }
  assert (Hb2 : forall (x : pydict) w0,
            snd (match getitem x "title" w0 with
                 | (Ok _, w') =>
                     match getitem x "link" w' with
                     | (Ok _, w'') => (Ok tt, w'')
                     | (Raise e, w'') => (Raise e, w'')
                     end
                 | (Raise e, w') => (Raise e, w')
                 end) = w0).
  { intros x w0. pose proof (getitem_pure x "title" w0).
    destruct (getitem x "title" w0) as [[|] w1]; simpl in *; subst; [|done].
    pose proof (getitem_pure x "link" w0).
    destruct (getitem x "link" w0) as [[|] ?]; done. }
  specialize (H1 Hb1 w). specialize (H2 Hb2).
  destruct (for_each (post :: posts) _ w) as [[[]|e] w1]; simpl in H1; subst w1;
    [|done].
  specialize (H2 w).
  destruct (for_each (post :: posts) _ w) as [[[]|e] w1]; simpl in H2; subst w1;
    [|done].
  unfold chat_completion. by destruct (g4f_reply w).
Qed.

Lemma count_categories_raises post posts categories w :
  dict_get post "category_name" = None ->
  count_categories (post :: posts) categories w
  = (Raise (KeyError "category_name"), w).
Proof.
  intros Hnone. simpl. unfold getitem. unfold_py. by rewrite Hnone.
Qed.

(** [generate_user_sum] never reports success: with no unread post it
    says so, and with some the tally of categories raises. *)
Lemma generate_user_sum_run uid limit w :
  exists text w',
    generate_user_sum uid limit w
    = (Ok [("success", PBool false); ("msg", PStr text)], w')
    /\ keeps_mail w w' /\ dm_faults w' = dm_faults w.
Proof.
  unfold generate_user_sum.
  destruct (get_unread_posts_run uid limit w) as (posts & fs & Hposts & Hkeys).
  destruct posts as [|post posts].
  - exists "You have no unread posts!", (set_db_faults fs w). split; [|done].
    apply try_except_ok. by rewrite (bind_ok _ _ _ _ _ Hposts).
  - destruct (get_user_run uid (set_db_faults fs w)) as (user & fs' & Huser).
    pose proof (generate_sum_pure (post :: posts)
                  (set_db_faults fs' (set_db_faults fs w))) as Hsum.
    destruct (generate_sum (post :: posts) (set_db_faults fs' (set_db_faults fs w)))
      as [[sum_text|e] w1] eqn:Hgen; simpl in Hsum; subst w1.
    + exists ("Error generating sum: " +:+ exn_str (KeyError "category_name")),
             (set_db_faults fs' (set_db_faults fs w)).
      split; [|done].
      erewrite try_except_raise; [done|].
      rewrite (bind_ok _ _ _ _ _ Hposts). cbn [nonempty negb].
      rewrite (bind_ok _ _ _ _ _ Huser), (bind_ok _ _ _ _ _ Hgen).
      apply bind_raise, count_categories_raises.
      by apply Forall_cons in Hkeys as [? _].
    + exists ("Error generating sum: " +:+ exn_str e),
             (set_db_faults fs' (set_db_faults fs w)).
      split; [|done].
      erewrite try_except_raise; [done|].
      rewrite (bind_ok _ _ _ _ _ Hposts). cbn [nonempty negb].
      rewrite (bind_ok _ _ _ _ _ Huser). by apply bind_raise.
Qed.

Lemma send_dm_run bot uid msg w :
  exists r w', send_dm bot uid msg w = (r, w')
    /\ unread_posts w' = unread_posts w
    /\ (outbox w' = outbox w \/ outbox w' = outbox w ++ [(uid, msg)]).
Proof.
  unfold send_dm. destruct (dm_faults w) as [|[] fs]; eexists _, _;
    (split; [done|]); simpl; eauto.
Qed.

(** [send_sum_to_user] as it runs: it returns false, at most a text
    message goes out, and the mailbox stays. *)
Lemma send_sum_to_user_run bot uid clear_after w :
  exists w', send_sum_to_user bot uid clear_after w = (Ok false, w')
    /\ unread_posts w' = unread_posts w
    /\ (outbox w' = outbox w
        \/ exists text, outbox w' = outbox w ++ [(uid, MText text)]).
Proof.
  unfold send_sum_to_user.
  destruct (generate_user_sum_run uid 50 w) as (text & w1 & Hgen & [Hun Hout] & _).
  destruct (send_dm_run bot uid (MText text) w1) as (r & w2 & Hsend & Hun2 & Hout2).
  exists w2. split; [|split].
  - apply try_except_ok. rewrite (bind_ok _ _ _ _ _ Hgen).
    erewrite bind_ok by reflexivity. cbn [truthy negb].
    unfold_py. cbn [getitem dict_get String.eqb Ascii.eqb Bool.eqb as_text].
    simpl. rewrite Hsend. by destruct r.
  - congruence.
  - rewrite <- Hout. destruct Hout2 as [->| ->]; eauto.
Qed.

(** C9. Every call of [send_sum_to_user] ends in one of two ways: it
    returns true and a summary embed has reached the subscriber, or it
    returns false and the unread posts are as they were. So the mailbox is
    cleared only after a delivered summary, and a failure to generate or
    to send leaves it intact. *)
Theorem summary_failure_keeps_mailbox bot uid clear_after w :
  (fst (send_sum_to_user bot uid clear_after w) = Ok true
   /\ summary_delivered uid w (snd (send_sum_to_user bot uid clear_after w)))
  \/ (fst (send_sum_to_user bot uid clear_after w) = Ok false
      /\ unread_posts (snd (send_sum_to_user bot uid clear_after w))
         = unread_posts w).
Proof.
  destruct (send_sum_to_user_run bot uid clear_after w) as (w' & Hrun & Hun & _).
  right. by rewrite Hrun.
Qed.

(** A delivery that fails, simulated: the error text cannot be sent, false
    is returned and the unread post is still there. *)
Example summary_delivery_failure :
  fst (send_sum_to_user DiscordBot 1 true
         (set_dm [true] [] (make_world [ann] ∅ [unread_of_ann] 1 [] None)))
    = Ok false
  /\ unread_posts
       (snd (send_sum_to_user DiscordBot 1 true
               (set_dm [true] [] (make_world [ann] ∅ [unread_of_ann] 1 [] None))))
     = [unread_of_ann].
Proof. repeat apply conj; vm_refl. Qed.

(** * More of the storage layer and of the user manager *)

(** ** Reading users *)

Lemma get_user_healthy uid w :
  db_faults w = [] ->
  get_user uid w = (Ok (user_row_of uid w ≫= parse_user), w).
Proof.
  intros Hf. unfold get_user, user_row_of, parse_user, keywords_of_row, json_loads.
  unfold_py. rewrite (connect_healthy w Hf).
  destruct (List.find _ (users w)) as [row|]; [|done]. simpl.
  destruct (u_cats row); [done|].
  by destruct (u_keywords row) as [[|kw]|].
Qed.

(** [get_user] only moves the fault schedule on. *)
Lemma get_user_frame uid w :
  exists user fs, get_user uid w = (Ok user, set_db_faults fs w).
Proof. apply get_user_run. Qed.


Lemma find_replace_user_other row us uid :
  uid <> u_uid row ->
  List.find (fun r => Z.eqb (u_uid r) uid) (replace_user row us)
  = List.find (fun r => Z.eqb (u_uid r) uid) us.
Proof.
  intros Hne. unfold replace_user. induction us as [|r us IH]; simpl.
  - apply Z.eqb_neq in Hne. by rewrite Z.eqb_sym, Hne.
  - destruct (Z.eqb (u_uid r) (u_uid row)) eqn:Heq; simpl.
    + apply Z.eqb_eq in Heq. rewrite Heq.
      apply Z.eqb_neq in Hne. by rewrite Z.eqb_sym, Hne.
    + by destruct (Z.eqb (u_uid r) uid).
Qed.

Lemma add_user_healthy uid uname cats w :
  db_faults w = [] ->
  exists w', add_user uid uname cats w = (Ok true, w')
    /\ users w' = replace_user
                    {| u_uid := uid; u_uname := uname;
                       u_cats := json_dumps (match cats with
                                             | PNone => PList []
                                             | _ => cats
                                             end);
                       u_keywords := Some (Encodes (PList []));
                       u_created_at := clock w (clock_reads w) |} (users w)
    /\ db_faults w' = [] /\ unread_posts w' = unread_posts w
    /\ last_seen w' = last_seen w /\ outbox w' = outbox w.
Proof.
  intros Hf. unfold add_user, utcnow. unfold_py.
  rewrite (connect_healthy w Hf). simpl. eexists. split; [done|]. done.
Qed.

Lemma update_user_subscriptions_healthy uid categories w :
  db_faults w = [] ->
  exists w', update_user_subscriptions uid categories w = (Ok true, w')
    /\ users w' = update_cats uid (json_dumps categories) (users w)
    /\ db_faults w' = [] /\ unread_posts w' = unread_posts w
    /\ last_seen w' = last_seen w /\ outbox w' = outbox w.
Proof.
  intros Hf. unfold update_user_subscriptions. unfold_py.
  rewrite (connect_healthy w Hf). simpl. eexists. split; [done|]. done.
Qed.

Lemma find_update_cats uid cats us :
  List.find (fun r => Z.eqb (u_uid r) uid) (update_cats uid cats us)
  = with_cats cats <$> List.find (fun r => Z.eqb (u_uid r) uid) us.
Proof.
  unfold update_cats. induction us as [|r us IH]; [done|].
  cbn [map List.find]. destruct (Z.eqb (u_uid r) uid) eqn:Hu; cbn [u_uid with_cats];
    by rewrite Hu.
Qed.

Lemma find_update_keywords uid kw us :
  List.find (fun r => Z.eqb (u_uid r) uid) (update_keywords uid kw us)
  = with_keywords kw <$> List.find (fun r => Z.eqb (u_uid r) uid) us.
Proof.
  unfold update_keywords. induction us as [|r us IH]; [done|].
  cbn [map List.find].
  destruct (Z.eqb (u_uid r) uid) eqn:Hu; cbn [u_uid with_keywords]; by rewrite Hu.
Qed.

Lemma find_uid_eq uid (us : list user_row) row :
  List.find (fun r => Z.eqb (u_uid r) uid) us = Some row -> u_uid row = uid.
Proof. intros [_ Heq]%find_some. by apply Z.eqb_eq. Qed.



(** ** Subscriptions *)

Lemma join_texts_returns sep names w :
  exists s, join_texts sep (map PStr names) w = (Ok s, w).
Proof.
  induction names as [|name names IH]; [by eexists|].
  destruct names as [|name' names]; [by eexists|].
  destruct IH as [s Hs]. eexists. cbn [map join_texts] in *.
  by rewrite (bind_ok _ _ _ _ _ Hs).
Qed.

Lemma py_join_returns sep names w :
  exists s, py_join sep (PList (map PStr names)) w = (Ok s, w).
Proof.
  unfold py_join. destruct (join_texts_returns sep names w) as [s Hs].
  exists s. by erewrite bind_ok by reflexivity.
Qed.

Lemma parse_user_with_cats cats row u :
  parse_user row = Some u ->
  exists u', parse_user (with_cats (Encodes cats) row) = Some u'
    /\ dict_get u' "cats" = Some cats
    /\ dict_get u' "keywords" = dict_get u "keywords"
    /\ dict_get u' "uname" = dict_get u "uname".
Proof.
  unfold parse_user. simpl. destruct (u_cats row); [done|].
  destruct (u_keywords row) as [[|kw]|]; [done| |]; intros [= <-]; by eexists.
Qed.

(** [setup_user] with category names, on healthy storage. *)
Lemma setup_user_healthy uid uname names w :
  db_faults w = [] ->
  exists w', setup_user uid uname (PList (map PStr names)) w = (Ok true, w')
    /\ db_faults w' = []
    /\ users w'
       = match user_row_of uid w ≫= parse_user with
         | Some _ => update_cats uid (Encodes (PList (map PStr names))) (users w)
         | None =>
             replace_user {| u_uid := uid; u_uname := uname;
                             u_cats := Encodes (PList (map PStr names));
                             u_keywords := Some (Encodes (PList []));
                             u_created_at := clock w (clock_reads w) |} (users w)
         end.
Proof.
  intros Hf. unfold setup_user.
  pose proof (get_user_healthy uid w Hf) as Hget.
  destruct (user_row_of uid w ≫= parse_user) as [u|].
  - destruct (update_user_subscriptions_healthy uid (PList (map PStr names)) w Hf)
      as (w1 & Hup & Hus & Hf1 & _).
    destruct (py_join_returns ", " names w1) as [s Hs].
    exists w1. split; [|done].
    apply try_except_ok. rewrite (bind_ok _ _ _ _ _ Hget).
    rewrite (bind_ok _ _ _ _ _ Hup). unfold_py. by rewrite Hs.
  - destruct (add_user_healthy uid uname (PList (map PStr names)) w Hf)
      as (w1 & Hadd & Hus & Hf1 & _).
    destruct (py_join_returns ", " names w1) as [s Hs].
    exists w1. split; [|done].
    apply try_except_ok. rewrite (bind_ok _ _ _ _ _ Hget).
    rewrite (bind_ok _ _ _ _ _ Hadd). unfold_py. by rewrite Hs.
Qed.



(** X3. For a user whose record reads back, [setup_user] on healthy
    storage changes the categories only: the keywords stay, and so does
    the stored name, whatever name is passed. *)
Theorem setup_user_keeps_keywords uid uname names w u :
  db_faults w = [] ->
  fst (get_user uid w) = Ok (Some u) ->
  exists u',
    fst (get_user uid (snd (setup_user uid uname (PList (map PStr names)) w)))
    = Ok (Some u')
    /\ dict_get u' "keywords" = dict_get u "keywords"
    /\ dict_get u' "uname" = dict_get u "uname".
Proof.
  intros Hf Hu. rewrite (get_user_healthy uid w Hf) in Hu. simpl in Hu.
  injection Hu as Hu.
  destruct (setup_user_healthy uid uname names w Hf) as (w' & Hrun & Hf' & Hus).
  rewrite Hrun. simpl snd. rewrite Hu in Hus.
  rewrite (get_user_healthy uid w' Hf'). unfold user_row_of in *.
  rewrite Hus, find_update_cats.
  destruct (List.find _ (users w)) as [row|]; [|done]. simpl in Hu |- *.
  destruct (parse_user_with_cats (PList (map PStr names)) row u Hu)
    as (u' & Hparse & _ & Hkw & Hname).
  exists u'. by rewrite Hparse.
Qed.

Lemma setup_user_keeps_keywords_witness :
  exists u',
    fst (get_user 2 (snd (setup_user 2 "robert" (PList (map PStr ["news"]))
                            (make_world [bob] ∅ [] 0 [] None))))
    = Ok (Some u')
    /\ dict_get u' "keywords"
       = dict_get [("uid", PInt 2); ("uname", PStr "bob");
                   ("cats", PList [PStr "tech"]); ("keywords", PList [PStr "rust"]);
                   ("created_at", PStr "2023-11-05T10:00:00")] "keywords"
    /\ dict_get u' "uname"
       = dict_get [("uid", PInt 2); ("uname", PStr "bob");
                   ("cats", PList [PStr "tech"]); ("keywords", PList [PStr "rust"]);
                   ("created_at", PStr "2023-11-05T10:00:00")] "uname".
Proof.
  apply (setup_user_keeps_keywords 2 "robert" ["news"]
           (make_world [bob] ∅ [] 0 [] None)); reflexivity.
Defined.



(** ** Keywords *)

Lemma lower_ascii_idem c : lower_ascii (lower_ascii c) = lower_ascii c.
Proof. by destruct c as [[] [] [] [] [] [] [] []]. Qed.

Lemma str_lower_idem s : str_lower (str_lower s) = str_lower s.
Proof. induction s as [|c s IH]; simpl; [done|]. by rewrite lower_ascii_idem, IH. Qed.

Lemma map_py_lower_texts kws w :
  map_py py_lower (map PStr kws) w = (Ok (map str_lower kws), w).
Proof.
  induction kws as [|k kws IH]; [done|]. cbn [map map_py].
  erewrite bind_ok by reflexivity. by rewrite (bind_ok _ _ _ _ _ IH).
Qed.

Lemma get_user_keywords_healthy uid w :
  db_faults w = [] ->
  get_user_keywords uid w
  = (Ok (match user_row_of uid w ≫= parse_user with
         | Some u => default (PList []) (dict_get u "keywords")
         | None => PList []
         end), w).
Proof.
  intros Hf. unfold get_user_keywords. apply try_except_ok.
  rewrite (bind_ok _ _ _ _ _ (get_user_healthy uid w Hf)).
  destruct (user_row_of uid w) as [row|]; [|done]. simpl.
  unfold parse_user. destruct (u_cats row); [done|].
  by destruct (u_keywords row) as [[|kw]|].
Qed.

Lemma parse_user_with_keywords keywords row u :
  parse_user row = Some u ->
  exists u', parse_user (with_keywords (Encodes keywords) row) = Some u'
    /\ dict_get u' "keywords" = Some keywords.
Proof.
  unfold parse_user. simpl. destruct (u_cats row); [done|]. by eexists.
Qed.

(** [add_user_keyword] for a record with textual keywords, on healthy
    storage. *)
Lemma add_user_keyword_healthy uid keyword w u kws :
  db_faults w = [] ->
  user_row_of uid w ≫= parse_user = Some u ->
  dict_get u "keywords" = Some (PList (map PStr kws)) ->
  exists w', add_user_keyword uid keyword w = (Ok true, w')
    /\ db_faults w' = []
    /\ exists u', user_row_of uid w' ≫= parse_user = Some u'
         /\ dict_get u' "keywords" = Some (PList (map PStr (with_keyword keyword kws)))
         /\ (existsb (String.eqb (str_lower keyword)) (map str_lower kws) = true ->
             users w' = users w).
Proof.
  intros Hf Hu Hkw. unfold add_user_keyword, with_keyword.
  pose proof (get_user_healthy uid w Hf) as Hget. rewrite Hu in Hget.
  destruct (existsb (String.eqb (str_lower keyword)) (map str_lower kws)) eqn:Hin.
  - exists w. split; [|by eauto]. apply try_except_ok.
    rewrite (bind_ok _ _ _ _ _ Hget), Hkw. cbn [default py_iter].
    erewrite bind_ok by reflexivity.
    rewrite (bind_ok _ _ _ _ _ (map_py_lower_texts kws w)). by rewrite Hin.
  - eexists. split; [|split].
    + apply try_except_ok.
      rewrite (bind_ok _ _ _ _ _ Hget), Hkw. cbn [default py_iter].
      erewrite bind_ok by reflexivity.
      rewrite (bind_ok _ _ _ _ _ (map_py_lower_texts kws w)). rewrite Hin.
      cbn [negb py_append]. erewrite bind_ok by reflexivity.
      unfold_py. rewrite (connect_healthy w Hf). reflexivity.
    + done.
    + unfold user_row_of in *. simpl. rewrite find_update_keywords.
      destruct (List.find _ (users w)) as [row|]; [|done]. simpl in Hu |- *.
      destruct (parse_user_with_keywords
                  (PList (map PStr kws ++ [PStr (str_lower keyword)])) row u Hu)
        as (u' & Hparse & Hkw').
      exists u'. unfold json_dumps. rewrite Hparse. split; [done|].
      split; [|done]. by rewrite Hkw', map_app.
Qed.

Lemma get_user_record uid w u :
  db_faults w = [] ->
  fst (get_user uid w) = Ok (Some u) ->
  user_row_of uid w ≫= parse_user = Some u.
Proof.
  intros Hf Hu. rewrite (get_user_healthy uid w Hf) in Hu. by injection Hu.
Qed.



Lemma with_keyword_has keyword kws :
  existsb (String.eqb (str_lower keyword)) (map str_lower (with_keyword keyword kws))
  = true.
Proof.
  unfold with_keyword.
  destruct (existsb _ (map str_lower kws)) eqn:Hin; [done|].
  rewrite map_app, existsb_app. simpl.
  by rewrite str_lower_idem, String.eqb_refl, orb_true_r.
Qed.

(** X6. Adding the same keyword a second time, in whatever case, changes
    nothing in the user table. *)
Theorem add_user_keyword_twice uid keyword w u kws :
  db_faults w = [] ->
  fst (get_user uid w) = Ok (Some u) ->
  dict_get u "keywords" = Some (PList (map PStr kws)) ->
  users (snd (add_user_keyword uid keyword (snd (add_user_keyword uid keyword w))))
  = users (snd (add_user_keyword uid keyword w)).
Proof.
  intros Hf Hu Hkw.
  destruct (add_user_keyword_healthy uid keyword w u kws Hf
              (get_user_record uid w u Hf Hu) Hkw)
    as (w' & Hrun & Hf' & u' & Hu' & Hkw' & _).
  rewrite Hrun. simpl snd.
  destruct (add_user_keyword_healthy uid keyword w' u' (with_keyword keyword kws)
              Hf' Hu' Hkw') as (w'' & Hrun' & _ & _ & _ & _ & Hsame).
  rewrite Hrun'. simpl snd. apply Hsame, with_keyword_has.
Qed.

Lemma add_user_keyword_twice_witness :
  users (snd (add_user_keyword 2 "Go"
                (snd (add_user_keyword 2 "Go" (make_world [bob] ∅ [] 0 [] None)))))
  = users (snd (add_user_keyword 2 "Go" (make_world [bob] ∅ [] 0 [] None))).
Proof.
  apply (add_user_keyword_twice 2 "Go" (make_world [bob] ∅ [] 0 [] None)
           [("uid", PInt 2); ("uname", PStr "bob");
            ("cats", PList [PStr "tech"]); ("keywords", PList [PStr "rust"]);
            ("created_at", PStr "2023-11-05T10:00:00")] ["rust"]); reflexivity.
Defined.




(** ** Lookups under a key the records do not carry *)

(** The records of [get_user] have no key [subscribed_cats]. *)
Lemma get_user_shape uid w :
  exists user fs,
    get_user uid w = (Ok user, set_db_faults fs w)
    /\ forall u, user = Some u -> dict_get u "subscribed_cats" = None.
Proof.
  unfold get_user, keywords_of_row, json_loads.
  destruct (connect_frame w) as ([[]|e] & fs & Hc); unfold_py; rewrite Hc.
  - simpl. destruct (List.find _ _) as [row|]; [|by eexists _, fs].
    destruct (u_cats row); [by eexists _, fs|].
    destruct (u_keywords row) as [[|kw]|]; eexists _, fs;
      (split; [done|]); by intros u [= <-].
  - by eexists None, fs.
Qed.

Lemma all_users_record row w0 :
  exists r,
    (cats ← json_loads (u_cats row);
     keywords ← keywords_of_row row;
     ret [("uid", PInt (u_uid row)); ("uname", PStr (u_uname row));
          ("cats", cats); ("keywords", keywords)]) w0 = (r, w0)
    /\ forall u, r = Ok u -> dict_get u "subscribed_cats" = None.
Proof.
  unfold keywords_of_row, json_loads. unfold_py.
  destruct (u_cats row); [by eexists|].
  destruct (u_keywords row) as [[|kw]|]; eexists; (split; [done|]);
    try done; by intros u [= <-].
Qed.

Lemma map_py_shape {A B} (f : A -> Py B) (P : B -> Prop) xs w0 :
  (forall x, exists r, f x w0 = (r, w0) /\ forall y, r = Ok y -> P y) ->
  exists r, map_py f xs w0 = (r, w0) /\ forall ys, r = Ok ys -> Forall P ys.
Proof.
  intros Hf. induction xs as [|x xs IH].
  - eexists. split; [done|]. by intros ys [= <-].
  - destruct (Hf x) as ([y|e] & Hx & Hy), IH as ([ys|e'] & Hxs & Hys);
      cbn [map_py].
    + eexists. rewrite (bind_ok _ _ _ _ _ Hx), (bind_ok _ _ _ _ _ Hxs).
      split; [done|]. intros ys' [= <-]. constructor; eauto.
    + eexists. rewrite (bind_ok _ _ _ _ _ Hx), (bind_raise _ _ _ _ _ Hxs).
      split; done.
    + eexists. rewrite (bind_raise _ _ _ _ _ Hx). split; done.
    + eexists. rewrite (bind_raise _ _ _ _ _ Hx). split; done.
Qed.

(** Nor have the records of [get_all_users]. *)
Lemma get_all_users_shape w :
  exists us fs,
    get_all_users w = (Ok us, set_db_faults fs w)
    /\ Forall (fun u => dict_get u "subscribed_cats" = None) us.
Proof.
  unfold get_all_users.
  destruct (connect_frame w) as ([[]|e] & fs & Hc).
  - destruct (map_py_shape
                (fun row =>
                   cats ← json_loads (u_cats row);
                   keywords ← keywords_of_row row;
                   ret [("uid", PInt (u_uid row)); ("uname", PStr (u_uname row));
                        ("cats", cats); ("keywords", keywords)])
                (fun u => dict_get u "subscribed_cats" = None)
                (users (set_db_faults fs w)) (set_db_faults fs w)
                (fun row => all_users_record row _))
      as ([us|e] & Hr & Hshape).
    + exists us, fs. split; [|by apply Hshape].
      apply try_except_ok. rewrite (bind_ok _ _ _ _ _ Hc).
      by erewrite bind_ok by reflexivity.
    + exists [], fs. split; [|done].
      erewrite try_except_raise;
        [|rewrite (bind_ok _ _ _ _ _ Hc); erewrite bind_ok by reflexivity; exact Hr].
      done.
  - exists [], fs. split; [|done].
    erewrite try_except_raise; [|by apply bind_raise]. done.
Qed.

(** A selection that asks every record for a missing key: nothing is
    selected when there is no record, and the lookup raises otherwise. *)
Lemma select_by_missing_key {A} (f : pydict -> pyval -> Py A) us w :
  Forall (fun u => dict_get u "subscribed_cats" = None) us ->
  map_py (fun user => subscribed ← getitem user "subscribed_cats"; f user subscribed)
         us w
  = match us with
    | [] => (Ok [], w)
    | _ => (Raise (KeyError "subscribed_cats"), w)
    end.
Proof.
  intros Hus. destruct Hus as [|u us Hu _]; [done|].
  cbn [map_py]. apply bind_raise, bind_raise. unfold getitem. by rewrite Hu.
Qed.

Lemma get_users_by_cat_run cat w :
  exists fs, get_users_by_cat cat w = (Ok [], set_db_faults fs w).
Proof.
  destruct (get_all_users_shape w) as (us & fs & Hall & Hshape). exists fs.
  unfold get_users_by_cat.
  pose proof (select_by_missing_key
                (fun user subscribed => keep ← py_contains cat subscribed;
                                        ret (keep, user))
                us (set_db_faults fs w) Hshape) as Hsel.
  destruct us as [|u us].
  - apply try_except_ok.
    rewrite (bind_ok _ _ _ _ _ Hall). by rewrite (bind_ok _ _ _ _ _ Hsel).
  - erewrite try_except_raise;
      [|rewrite (bind_ok _ _ _ _ _ Hall); by apply bind_raise].
    done.
Qed.

Lemma get_all_active_users_run w :
  exists fs, get_all_active_users w = (Ok [], set_db_faults fs w).
Proof.
  destruct (get_all_users_shape w) as (us & fs & Hall & Hshape). exists fs.
  unfold get_all_active_users.
  pose proof (select_by_missing_key
                (fun user subscribed => n ← py_len subscribed;
                                        ret (0 <? n, user))
                us (set_db_faults fs w) Hshape) as Hsel.
  destruct us as [|u us].
  - apply try_except_ok.
    rewrite (bind_ok _ _ _ _ _ Hall). by rewrite (bind_ok _ _ _ _ _ Hsel).
  - erewrite try_except_raise;
      [|rewrite (bind_ok _ _ _ _ _ Hall); by apply bind_raise].
    done.
Qed.

(** X8. The two subscriber listings of the user manager come back empty
    in every state of the tables: [get_users_by_cat] and
    [get_all_active_users] ask each user record for the key
    [subscribed_cats], while the records carry the list under [cats]. *)
Theorem subscriber_listings_are_empty cat w :
  fst (get_users_by_cat cat w) = Ok []
  /\ fst (get_all_active_users w) = Ok [].
Proof.
  destruct (get_users_by_cat_run cat w) as [fs ->].
  by destruct (get_all_active_users_run w) as [fs' ->].
Qed.

(** X9. [add_cat_to_user] and [remove_cat_from_user] return False and
    leave the user table as it is, for every user and category: for a
    registered user the lookup of [subscribed_cats] raises, for any other
    there is nothing to change. [get_user_cats] returns the empty list. *)
Theorem category_edits_change_nothing uid cat w :
  (fst (add_cat_to_user uid cat w) = Ok false
   /\ users (snd (add_cat_to_user uid cat w)) = users w)
  /\ (fst (remove_cat_from_user uid cat w) = Ok false
      /\ users (snd (remove_cat_from_user uid cat w)) = users w)
  /\ fst (get_user_cats uid w) = Ok (PList []).
Proof.
  destruct (get_user_shape uid w) as (user & fs & Hget & Hshape).
  assert (Hkey : forall u, user = Some u ->
            getitem u "subscribed_cats" (set_db_faults fs w)
            = (Raise (KeyError "subscribed_cats"), set_db_faults fs w)).
  { intros u Hu. unfold getitem. by rewrite (Hshape u Hu). }
  split; [|split].
  - unfold add_cat_to_user. destruct user as [u|].
    + erewrite try_except_raise;
        [|rewrite (bind_ok _ _ _ _ _ Hget); apply bind_raise, (Hkey u eq_refl)].
      done.
    + erewrite try_except_ok; [|by rewrite (bind_ok _ _ _ _ _ Hget)]. done.
  - unfold remove_cat_from_user. destruct user as [u|].
    + erewrite try_except_raise;
        [|rewrite (bind_ok _ _ _ _ _ Hget); apply bind_raise, (Hkey u eq_refl)].
      done.
    + erewrite try_except_ok; [|by rewrite (bind_ok _ _ _ _ _ Hget)]. done.
  - unfold get_user_cats. destruct user as [u|].
    + erewrite try_except_raise;
        [|rewrite (bind_ok _ _ _ _ _ Hget); apply (Hkey u eq_refl)].
      done.
    + erewrite try_except_ok; [|by rewrite (bind_ok _ _ _ _ _ Hget)]. done.
Qed.

(** The same at a registered user who does follow the category. *)
Example remove_cat_from_user_keeps_subscription :
  subscribed_to "tech" ann = true
  /\ fst (remove_cat_from_user 1 "tech" (make_world [ann] ∅ [] 0 [] None)) = Ok false
  /\ users (snd (remove_cat_from_user 1 "tech" (make_world [ann] ∅ [] 0 [] None)))
     = [ann].
Proof. repeat apply conj; vm_refl. Qed.

(** X10. The daily sweep sends no message and clears no mailbox, in any
    state: it runs over [get_all_active_users], which is empty. *)
Theorem daily_summaries_reach_nobody bot w :
  fst (send_daily_summaries bot w) = Ok tt
  /\ outbox (snd (send_daily_summaries bot w)) = outbox w
  /\ unread_posts (snd (send_daily_summaries bot w)) = unread_posts w.
Proof.
  unfold send_daily_summaries.
  destruct (get_all_active_users_run w) as [fs Hact].
  erewrite try_except_ok; [|by rewrite (bind_ok _ _ _ _ _ Hact)].
  done.
Qed.

(** ** Reading and clearing mailboxes *)

Lemma sorted_app_l front back :
  StronglySorted newer_or_same (front ++ back) ->
  StronglySorted newer_or_same front.
Proof.
  induction front as [|a front IH]; intros Hs; [constructor|].
  simpl in Hs. apply StronglySorted_inv in Hs as [Hs Hall].
  constructor; [by apply IH|].
  by apply Forall_app in Hall as [Hall _].
Qed.

(** X11. [get_unread_posts] returns at most [limit] posts (for a limit
    that is not negative), each made from a row of the table that belongs
    to the user, and no post comes before one that was created later. *)
Theorem get_unread_posts_newest_first uid limit w :
  0 <= limit ->
  exists rows,
    fst (get_unread_posts uid limit w) = Ok (map row_to_post rows)
    /\ Z.of_nat (length rows) <= limit
    /\ Forall (fun r => In r (unread_posts w) /\ p_uid r = uid) rows
    /\ StronglySorted newer_or_same rows.
Proof.
  intros Hlimit. unfold get_unread_posts, sql_limit.
  destruct (limit <? 0) eqn:Hneg; [lia|]. clear Hneg.
  destruct (connect_frame w) as ([[]|e] & fs & Hc); unfold_py; rewrite Hc; simpl.
  - eexists. split; [done|].
    set (mine := List.filter (fun r => Z.eqb (p_uid r) uid) (unread_posts w)).
    set (S := order_by_created_at_desc mine).
    split; [|split].
    + rewrite length_take. lia.
    + apply List.Forall_forall. intros r Hr.
      assert (HrS : In r S).
      { rewrite <- (take_drop (Z.to_nat limit) S). apply in_or_app. by left. }
      apply (Permutation_in _ (order_by_perm mine)) in HrS.
      apply filter_In in HrS as [Hin Huid]. by apply Z.eqb_eq in Huid.
    + apply (sorted_app_l _ (drop (Z.to_nat limit) S)).
      rewrite take_drop. apply order_by_sorted.
  - exists []. repeat split; [simpl; lia|constructor|constructor].
Qed.

Lemma get_unread_posts_newest_first_witness :
  exists rows,
    fst (get_unread_posts 1 2
           (snd (enqueue_all
                   [post_for 1 "tech" "first"; post_for 1 "news" "other";
                    post_for 1 "tech" "second"]
                   (make_world [ann] ∅ [] 0 [] None))))
    = Ok (map row_to_post rows)
    /\ Z.of_nat (length rows) <= 2
    /\ Forall (fun r =>
                 In r (unread_posts
                         (snd (enqueue_all
                                 [post_for 1 "tech" "first"; post_for 1 "news" "other";
                                  post_for 1 "tech" "second"]
                                 (make_world [ann] ∅ [] 0 [] None))))
                 /\ p_uid r = 1) rows
    /\ StronglySorted newer_or_same rows.
Proof.
  apply (get_unread_posts_newest_first 1 2). lia.
Defined.

(** The same run, spelled out: the two posts created last, newest first. *)
Example get_unread_posts_run_example :
  fst (get_unread_posts 1 2
         (snd (enqueue_all
                 [post_for 1 "tech" "first"; post_for 1 "news" "other";
                  post_for 1 "tech" "second"]
                 (make_world [ann] ∅ [] 0 [] None))))
  = Ok [[("id", PInt 3); ("cat", PStr "tech"); ("title", PStr "second");
         ("link", PStr "http://l"); ("published", PStr ""); ("summary", PStr "");
         ("created_at", PStr "2024-01-01T00:00:02")];
        [("id", PInt 2); ("cat", PStr "news"); ("title", PStr "other");
         ("link", PStr "http://l"); ("published", PStr ""); ("summary", PStr "");
         ("created_at", PStr "2024-01-01T00:00:01")]].
Proof. vm_refl. Qed.

Lemma clear_unread_posts_done uid w w' :
  clear_unread_posts uid w = (Ok true, w') ->
  unread_posts w'
  = List.filter (fun r => negb (Z.eqb (p_uid r) uid)) (unread_posts w).
Proof.
  unfold clear_unread_posts.
  destruct (connect_frame w) as ([[]|e] & fs & Hc); unfold_py; rewrite Hc.
  - by intros [= <-].
  - done.
Qed.

Lemma clear_unread_posts_healthy uid w :
  hd false (db_faults w) = false ->
  clear_unread_posts uid w = (Ok true, snd (clear_unread_posts uid w)).
Proof.
  intros Hf. unfold clear_unread_posts, connect. unfold_py.
  destruct (db_faults w) as [|f fs]; [done|]. simpl in Hf. by subst f.
Qed.

Lemma get_unread_count_run uid w :
  exists fs, get_unread_count uid w = (Ok 0, set_db_faults fs w)
             \/ get_unread_count uid w
                = (Ok (Z.of_nat (length (List.filter (fun r => Z.eqb (p_uid r) uid)
                                                     (unread_posts w)))),
                   set_db_faults fs w).
Proof.
  unfold get_unread_count.
  destruct (connect_frame w) as ([[]|e] & fs & Hc); unfold_py; rewrite Hc;
    exists fs; eauto.
Qed.

Lemma cleared_rows_of_user uid (rows : list unread_row) :
  List.filter (fun r => Z.eqb (p_uid r) uid)
              (List.filter (fun r => negb (Z.eqb (p_uid r) uid)) rows) = [].
Proof.
  induction rows as [|r rows IH]; [done|]. simpl.
  destruct (Z.eqb (p_uid r) uid) eqn:Hu; simpl; [done|]. by rewrite Hu.
Qed.

Lemma cleared_mailbox uid cat (rows : list unread_row) :
  mailbox uid cat (List.filter (fun r => negb (Z.eqb (p_uid r) uid)) rows) = [].
Proof.
  unfold mailbox, in_mailbox. induction rows as [|r rows IH]; [done|]. simpl.
  destruct (Z.eqb (p_uid r) uid) eqn:Hu; simpl; [done|]. by rewrite Hu.
Qed.

Lemma cleared_mailbox_other uid uid' cat (rows : list unread_row) :
  uid' <> uid ->
  mailbox uid' cat (List.filter (fun r => negb (Z.eqb (p_uid r) uid)) rows)
  = mailbox uid' cat rows.
Proof.
  intros Hne. unfold mailbox, in_mailbox.
  induction rows as [|r rows IH]; [done|]. simpl.
  destruct (Z.eqb (p_uid r) uid) eqn:Hu; simpl.
  - apply Z.eqb_eq in Hu. apply Z.eqb_neq in Hne.
    rewrite Hu, Z.eqb_sym, Hne. simpl. apply IH.
  - by rewrite IH.
Qed.

(** X12. A [clear_unread_posts] that reports success has emptied every
    mailbox of that user and touched no mailbox of any other user; the
    user's unread count read afterwards is 0. *)
Theorem clear_empties_one_user uid w w' :
  clear_unread_posts uid w = (Ok true, w') ->
  (forall cat, mailbox uid cat (unread_posts w') = [])
  /\ (forall uid' cat, uid' <> uid ->
        mailbox uid' cat (unread_posts w') = mailbox uid' cat (unread_posts w))
  /\ fst (get_unread_count uid w') = Ok 0.
Proof.
  intros Hclear. pose proof (clear_unread_posts_done uid w w' Hclear) as Hrows.
  split; [|split].
  - intros cat. rewrite Hrows. apply cleared_mailbox.
  - intros uid' cat Hne. rewrite Hrows. by apply cleared_mailbox_other.
  - destruct (get_unread_count_run uid w') as [fs [-> | ->]]; [done|].
    by rewrite Hrows, cleared_rows_of_user.
Qed.

Lemma clear_empties_one_user_witness :
  (forall cat,
     mailbox 1 cat
       (unread_posts
          (snd (clear_unread_posts 1
                  (snd (enqueue_all [post_for 1 "tech" "first"; post_for 2 "tech" "second"]
                          (make_world [ann] ∅ [] 0 [] None)))))) = [])
  /\ (forall uid' cat, uid' <> 1 ->
        mailbox uid' cat
          (unread_posts
             (snd (clear_unread_posts 1
                     (snd (enqueue_all
                             [post_for 1 "tech" "first"; post_for 2 "tech" "second"]
                             (make_world [ann] ∅ [] 0 [] None))))))
        = mailbox uid' cat
            (unread_posts
               (snd (enqueue_all [post_for 1 "tech" "first"; post_for 2 "tech" "second"]
                       (make_world [ann] ∅ [] 0 [] None)))))
  /\ fst (get_unread_count 1
            (snd (clear_unread_posts 1
                    (snd (enqueue_all
                            [post_for 1 "tech" "first"; post_for 2 "tech" "second"]
                            (make_world [ann] ∅ [] 0 [] None)))))) = Ok 0.
Proof.
  apply (clear_empties_one_user 1
           (snd (enqueue_all [post_for 1 "tech" "first"; post_for 2 "tech" "second"]
                   (make_world [ann] ∅ [] 0 [] None)))).
  apply clear_unread_posts_healthy. reflexivity.
Defined.




(** X14. Every writer of [unread_posts] keeps [id] a key below the
    AUTOINCREMENT counter: the enqueue, the trim and the clear, whether
    they succeed or fail. *)
Theorem mailbox_writers_keep_ids_unique w :
  unread_posts_keyed w ->
  (forall uid cat title link published summary,
     unread_posts_keyed
       (snd (add_unread_post uid cat title link published summary w)))
  /\ (forall uid cat limit,
        unread_posts_keyed (snd (trim_unread_posts uid cat limit w)))
  /\ (forall uid, unread_posts_keyed (snd (clear_unread_posts uid w))).
Proof.
  intros Hw. split; [|split].
  - intros uid cat title link published summary.
    destruct (add_unread_post_keyed uid cat title link published summary w Hw)
      as (ok & w' & Hadd & Hw'). by rewrite Hadd.
  - intros uid cat limit. destruct Hw as [Hnd Hle].
    unfold trim_unread_posts.
    destruct (connect_frame w) as ([[]|e] & fs & Hc); unfold_py; rewrite Hc;
      [|done].
    split; simpl.
    + by apply keyed_filter.
    + apply List.Forall_forall. intros r [Hr _]%filter_In.
      by apply (proj1 (List.Forall_forall _ _) Hle).
  - intros uid. destruct Hw as [Hnd Hle].
    unfold clear_unread_posts.
    destruct (connect_frame w) as ([[]|e] & fs & Hc); unfold_py; rewrite Hc;
      [|done].
    split; simpl.
    + by apply keyed_filter.
    + apply List.Forall_forall. intros r [Hr _]%filter_In.
      by apply (proj1 (List.Forall_forall _ _) Hle).
Qed.

Lemma mailbox_writers_keep_ids_unique_witness :
  unread_posts_keyed (make_world [ann] ∅ [unread_of_ann] 1 [] None)
  /\ unread_posts_keyed
       (snd (trim_unread_posts 1 "tech" 10
               (make_world [ann] ∅ [unread_of_ann] 1 [] None))).
Proof.
  assert (Hkeyed : unread_posts_keyed (make_world [ann] ∅ [unread_of_ann] 1 [] None)).
  { split; repeat constructor; [by intros []%elem_of_nil|simpl; lia]. }
  split; [exact Hkeyed|].
  exact (proj1 (proj2 (mailbox_writers_keep_ids_unique
                         (make_world [ann] ∅ [unread_of_ann] 1 [] None) Hkeyed))
           1 "tech" 10).
Defined.

(** ** Previews and pushes *)

Lemma send_dm_frame bot uid msg w :
  exists fs,
    send_dm bot uid msg w = (Ok tt, set_dm fs (outbox w ++ [(uid, msg)]) w)
    \/ send_dm bot uid msg w = (Raise HTTPException, set_dm fs (outbox w) w).
Proof.
  unfold send_dm. destruct (dm_faults w) as [|[] fs]; eauto.
Qed.

(** X15. A preview consumes nothing: whatever happens, the watermarks,
    the mailboxes and the user table are as before. It returns True
    exactly when one embed, made from the first entry of the fetch, has
    reached the user; otherwise it returns False and nothing has been
    sent. *)
Theorem preview_consumes_nothing `{Utils} bot user_id category url w :
  (last_seen (snd (send_latest_feed_preview bot user_id category url w)) = last_seen w
   /\ unread_posts (snd (send_latest_feed_preview bot user_id category url w))
      = unread_posts w
   /\ users (snd (send_latest_feed_preview bot user_id category url w)) = users w)
  /\ ((fst (send_latest_feed_preview bot user_id category url w) = Ok true
       /\ exists feed entry rest,
            upstream w url = Some feed /\ entries feed = entry :: rest
            /\ outbox (snd (send_latest_feed_preview bot user_id category url w))
               = outbox w ++
                 [(user_id,
                   create_feed_embed
                     (default "No title" (entry !! "title"))
                     (default "" (entry !! "link"))
                     (clean_html (default (default "" (entry !! "description"))
                                          (entry !! "summary")))
                     category
                     (default (default "" (entry !! "updated")) (entry !! "published"))
                     (get_entry_thumbnail entry))])
      \/ (fst (send_latest_feed_preview bot user_id category url w) = Ok false
          /\ outbox (snd (send_latest_feed_preview bot user_id category url w))
             = outbox w)).
Proof.
  unfold send_latest_feed_preview, fetch_feed. unfold_py.
  destruct (upstream w url) as [feed|] eqn:Hfeed; [|by auto].
  destruct (entries feed) as [|entry rest] eqn:Hent; [by auto|].
  match goal with
  | |- context [send_dm bot user_id ?m w] =>
      destruct (send_dm_frame bot user_id m w) as [fs [-> | ->]]
  end.
  - split; [done|]. left. split; [done|]. by exists feed, entry, rest.
  - split; [done|]. by right.
Qed.

(** A poll after a preview still finds the previewed entry new. *)
Example preview_then_poll :
  fst (send_latest_feed_preview (H := plain_utils) DiscordBot 1 "tech" demo_url
         (make_world [ann] ∅ [] 0 [] (Some feed_ba))) = Ok true
  /\ fst (get_new_entries demo_url feed_ba
            (snd (send_latest_feed_preview (H := plain_utils) DiscordBot 1 "tech"
                    demo_url (make_world [ann] ∅ [] 0 [] (Some feed_ba)))))
     = Ok [entry_b].
Proof. repeat apply conj; vm_refl. Qed.

(** ** Truncation *)

Lemma str_length_append a b :
  String.length (a +:+ b) = (String.length a + String.length b)%nat.
Proof. induction a as [|c a IH]; [done|]. rewrite append_String. simpl. by rewrite IH. Qed.

Lemma str_take_length n s : (String.length (str_take n s) <= n)%nat.
Proof.
  revert s. induction n as [|n IH]; intros [|c s]; simpl; try lia.
  specialize (IH s). lia.
Qed.

Lemma str_rstrip_length s : (String.length (str_rstrip s) <= String.length s)%nat.
Proof.
  induction s as [|c s IH]; simpl; [lia|].
  destruct (str_rstrip s) as [|c' kept]; simpl in *.
  - destruct (is_space c); simpl; lia.
  - lia.
Qed.

(** X16. For a bound of at least 3, the text that [truncate_text] returns
    is no longer than the bound. *)
Theorem truncate_text_fits `{Utils} text max_length :
  3 <= max_length ->
  Z.of_nat (String.length (truncate_text text max_length)) <= max_length.
Proof.
  intros Hmax. unfold truncate_text.
  destruct (String.eqb text ""); [simpl; lia|].
  destruct (Z.of_nat (String.length (clean_html text)) <=? max_length) eqn:Hfit.
  - lia.
  - rewrite str_length_append. unfold py_slice_to.
    destruct (max_length - 3 <? 0) eqn:Hneg; [lia|].
    pose proof (str_rstrip_length
                  (str_take (Z.to_nat (max_length - 3)) (clean_html text))).
    pose proof (str_take_length (Z.to_nat (max_length - 3)) (clean_html text)).
    simpl String.length. lia.
Qed.

Lemma truncate_text_fits_witness :
  Z.of_nat (String.length
              (truncate_text (H := plain_utils) "A post about compilers   and more" 20))
  <= 20.
Proof. apply (truncate_text_fits (H := plain_utils)). lia. Defined.

(** Trailing blanks of the cut go before the dots are put. *)
Example truncate_text_example :
  truncate_text (H := plain_utils) "A post about compilers   and more" 28
  = "A post about compilers...".
Proof. vm_refl. Qed.

(** ** More on the novelty filter *)

Lemma novelty_loop_prefix seen feed_entries latest_id new_entries :
  exists found rest,
    snd (novelty_loop seen feed_entries latest_id new_entries) = new_entries ++ found
    /\ feed_entries = found ++ rest.
Proof.
  revert latest_id new_entries.
  induction feed_entries as [|entry feed_entries IH]; intros latest_id new_entries.
  - exists [], []. by rewrite app_nil_r.
  - unfold novelty_loop; fold novelty_loop. destruct seen as [seen|].
    + destruct (String.eqb (get_entry_id entry) seen).
      * exists [], (entry :: feed_entries). by rewrite app_nil_r.
      * destruct (IH (match latest_id with
                      | Some _ => latest_id
                      | None => Some (get_entry_id entry)
                      end) (new_entries ++ [entry])) as (found & rest & Hsnd & Hsplit).
        exists (entry :: found), rest. rewrite Hsnd, <- app_assoc. by rewrite Hsplit.
    + by exists [entry], feed_entries.
Qed.

(** X17. Whatever the state of storage, the entries [get_new_entries]
    marks new are a front segment of the fetched list, in its order: no
    entry is skipped, none is reordered. *)
Theorem new_entries_are_a_front_segment url feed w :
  exists news rest,
    fst (get_new_entries url feed w) = Ok news
    /\ entries feed = news ++ rest.
Proof.
  destruct (get_last_seen_returns url w) as (seen & fs & Hseen).
  rewrite (get_new_entries_run _ _ _ _ _ Hseen).
  destruct (nonempty (entries feed)) eqn:Hne; simpl.
  - destruct (novelty_loop_prefix seen (entries feed) None [])
      as (found & rest & Hsnd & Hsplit).
    exists found, rest. by rewrite Hsnd.
  - exists [], (entries feed). done.
Qed.

Lemma update_last_seen_other url entry_id w url' :
  url' <> url ->
  last_seen (snd (update_last_seen url entry_id w)) !! url' = last_seen w !! url'.
Proof.
  intros Hne. unfold update_last_seen, utcnow.
  destruct (connect_frame w) as ([[]|e] & fs & Hc); unfold_py; rewrite Hc; simpl;
    [|done].
  by rewrite lookup_insert_ne.
Qed.

Lemma get_new_entries_other url feed w url' :
  url' <> url ->
  last_seen (snd (get_new_entries url feed w)) !! url' = last_seen w !! url'.
Proof.
  intros Hne.
  destruct (get_last_seen_returns url w) as (seen & fs & Hseen).
  rewrite (get_new_entries_run _ _ _ _ _ Hseen).
  destruct (negb _); [done|]. simpl.
  destruct (truthy_id _ && nonempty _); [|done].
  by rewrite update_last_seen_other.
Qed.

(** X18. A poll of one feed leaves the watermark of every other feed
    alone. *)
Theorem poll_keeps_other_watermarks `{Utils} category url bot w url' :
  url' <> url ->
  last_seen (snd (process_feed category url bot w)) !! url' = last_seen w !! url'.
Proof.
  intros Hne. rewrite process_feed_run. simpl.
  destruct (upstream w url); [|done]. by apply get_new_entries_other.
Qed.

Lemma poll_keeps_other_watermarks_witness :
  last_seen (snd (process_feed (H := plain_utils) "tech" "http://other.example/rss" None
                    (set_upstream (fun _ => Some feed_ba)
                       (make_world [ann] (seen_at "a") [] 0 [] None))))
    !! demo_url
  = last_seen (set_upstream (fun _ => Some feed_ba)
                 (make_world [ann] (seen_at "a") [] 0 [] None)) !! demo_url.
Proof.
  apply (poll_keeps_other_watermarks (H := plain_utils)). by vm_compute.
Defined.

(** The watermark after a healthy poll of a non-empty fetch. *)
Lemma get_new_entries_watermark url feed w entry rest :
  db_faults w = [] ->
  entries feed = entry :: rest ->
  get_entry_id entry <> "" ->
  last_entry_id <$> last_seen (snd (get_new_entries url feed w)) !! url
  = Some (get_entry_id entry).
Proof.
  intros Hf Hent Hid.
  destruct (get_new_entries_healthy url feed w Hf) as (_ & _ & Hadv & Hsame).
  rewrite Hent in Hadv, Hsame. rewrite novelty_loop_latest in Hadv, Hsame.
  rewrite (truthy_id_Some _ Hid) in Hadv, Hsame. simpl in Hadv, Hsame.
  destruct (nonempty (snd (novelty_loop (last_entry_id <$> last_seen w !! url)
                                        (entry :: rest) None []))) eqn:Hfound.
  - by apply Hadv.
  - rewrite (Hsame eq_refl).
    unfold novelty_loop in Hfound. destruct (last_entry_id <$> last_seen w !! url)
      as [seen|]; [|done].
    destruct (String.eqb (get_entry_id entry) seen) eqn:Heq.
    + apply String.eqb_eq in Heq. by rewrite Heq.
    + fold novelty_loop in Hfound.
      destruct (novelty_loop_prefix (Some seen) rest (Some (get_entry_id entry))
                  ([] ++ [entry])) as (found & rest' & Hsnd & _).
      rewrite Hsnd in Hfound. done.
Qed.

(** X19. After a poll on healthy storage of a fetch that is not empty
    and whose newest entry has a non-empty derived id, the stored
    watermark is that id, whether entries were new or not. *)
Theorem poll_leaves_watermark_at_newest url feed w entry rest :
  db_faults w = [] ->
  entries feed = entry :: rest ->
  get_entry_id entry <> "" ->
  last_entry_id <$> last_seen (snd (get_new_entries url feed w)) !! url
  = Some (get_entry_id entry).
Proof. apply get_new_entries_watermark. Qed.

Lemma poll_leaves_watermark_at_newest_witness :
  last_entry_id <$>
    last_seen (snd (get_new_entries demo_url feed_ba
                      (make_world [ann] (seen_at "a") [] 0 [] (Some feed_ba))))
    !! demo_url
  = Some (get_entry_id entry_b).
Proof.
  apply (poll_leaves_watermark_at_newest demo_url feed_ba _ entry_b [entry_a]);
    [reflexivity|reflexivity|by vm_compute].
Defined.

(** ** Pushing one entry *)

Lemma py_any_lower_pure content ks :
  exists r, forall w,
    py_any (fun keyword => k ← py_lower keyword; ret (str_contains k content)) ks w
    = (r, w).
Proof.
  induction ks as [|k ks [r IH]].
  - by exists (Ok false).
  - destruct k as [| | |s| |];
      try (exists (Raise (AttributeError "lower")); intros w; cbn [py_any];
           by apply bind_raise, bind_raise).
    destruct (str_contains (str_lower s) content) eqn:Hc.
    + exists (Ok true). intros w. cbn [py_any].
      erewrite bind_ok; [|by erewrite bind_ok by reflexivity]. by rewrite Hc.
    + exists r. intros w. cbn [py_any].
      erewrite bind_ok; [|by erewrite bind_ok by reflexivity]. rewrite Hc. apply IH.
Qed.

(** The verdict on a post is a function of the keywords read. *)
Lemma verdict_pure keywords content :
  exists r, forall w,
    (if negb (truthy keywords) then ret true
     else ks ← py_iter keywords;
          py_any (fun keyword => k ← py_lower keyword; ret (str_contains k content))
                 ks) w
    = (r, w).
Proof.
  destruct (negb (truthy keywords)); [by exists (Ok true)|].
  destruct keywords as [| | |s|l|d];
    try (exists (Raise (TypeError "object is not iterable")); intros w;
         by apply bind_raise).
  - destruct (py_any_lower_pure content (chars s)) as [r Hr].
    exists r. intros w. by erewrite bind_ok by reflexivity.
  - destruct (py_any_lower_pure content l) as [r Hr].
    exists r. intros w. by erewrite bind_ok by reflexivity.
  - destruct (py_any_lower_pure content (map (fun kv => PStr (fst kv)) d)) as [r Hr].
    exists r. intros w. by erewrite bind_ok by reflexivity.
Qed.

(** On healthy storage the filter reads the user table and nothing else,
    and changes nothing. *)
Lemma should_show_post_healthy uid title summary w :
  db_faults w = [] ->
  should_show_post uid title summary w = (Ok (passes uid title summary w), w)
  /\ forall w2, users w2 = users w -> db_faults w2 = [] ->
                passes uid title summary w2 = passes uid title summary w.
Proof.
  intros Hf.
  destruct (verdict_pure
              (match user_row_of uid w ≫= parse_user with
               | Some u => default (PList []) (dict_get u "keywords")
               | None => PList []
               end) (str_lower (title +:+ " " +:+ summary))) as [r Hr].
  assert (Hany : forall w0, db_faults w0 = [] -> users w0 = users w ->
            should_show_post uid title summary w0
            = (match r with Ok b => Ok b | Raise _ => Ok true end, w0)).
  { intros w0 Hf0 Hus0. unfold should_show_post, should_show_post_body.
    pose proof (get_user_keywords_healthy uid w0 Hf0) as Hkw.
    unfold user_row_of in *. rewrite Hus0 in Hkw.
    destruct r as [b|e].
    - apply try_except_ok. rewrite (bind_ok _ _ _ _ _ Hkw). apply Hr.
    - erewrite try_except_raise; [|rewrite (bind_ok _ _ _ _ _ Hkw); apply Hr].
      done. }
  unfold passes. rewrite (Hany w Hf eq_refl). simpl.
  split; [by destruct r|].
  intros w2 Hus2 Hf2. by rewrite (Hany w2 Hf2 Hus2).
Qed.

(** The loop of [post_entry_to_discord] over records that carry an
    integer [user_id]. *)
Lemma push_loop bot title summary embed us uids w w0 :
  db_faults w = [] ->
  Forall2 (fun user uid => dict_get user "user_id" = Some (PInt uid)) us uids ->
  users w0 = users w -> db_faults w0 = [] ->
  exists w1,
    for_each us (fun user =>
      user_id ← getitem user "user_id";
      user_id ← as_uid user_id;
      show ← should_show_post user_id title summary;
      if negb show then ret tt
      else try_except (send_dm bot user_id embed) (fun _ => ret tt)) w0
    = (Ok tt, w1)
    /\ outbox w1
       = outbox w0 ++
         map (fun uid => (uid, embed))
             (reached (List.filter (fun uid => passes uid title summary w) uids)
                      (dm_faults w0))
    /\ unread_posts w1 = unread_posts w0 /\ last_seen w1 = last_seen w0.
Proof.
  intros Hf Hus. revert w0.
  induction Hus as [|user uid us uids Hid _ IH]; intros w0 Hus0 Hf0.
  - exists w0. simpl. by rewrite app_nil_r.
  - destruct (should_show_post_healthy uid title summary w Hf) as [_ Hsame].
    destruct (should_show_post_healthy uid title summary w0 Hf0) as [Hshow _].
    rewrite (Hsame w0 Hus0 Hf0) in Hshow.
    cbn [for_each List.filter].
    destruct (passes uid title summary w) eqn:Hpass.
    + destruct (send_dm_frame bot uid embed w0) as [fs [Hsend | Hsend]].
      * destruct (IH (set_dm fs (outbox w0 ++ [(uid, embed)]) w0) Hus0 Hf0)
          as (w1 & Hrest & Hout & Hun & Hseen).
        exists w1. split; [|split; [|done]].
        -- erewrite bind_ok; [exact Hrest|].
           unfold getitem. rewrite Hid. erewrite bind_ok by reflexivity.
           erewrite bind_ok by reflexivity. rewrite (bind_ok _ _ _ _ _ Hshow).
           cbn [negb]. by apply try_except_ok.
        -- rewrite Hout. simpl outbox. simpl dm_faults.
           unfold send_dm in Hsend. destruct (dm_faults w0) as [|[] fs0].
           ++ injection Hsend as <-. simpl. by rewrite <- app_assoc.
           ++ done.
           ++ injection Hsend as <-. simpl. by rewrite <- app_assoc.
      * destruct (IH (set_dm fs (outbox w0) w0) Hus0 Hf0)
          as (w1 & Hrest & Hout & Hun & Hseen).
        exists w1. split; [|split; [|done]].
        -- erewrite bind_ok; [exact Hrest|].
           unfold getitem. rewrite Hid. erewrite bind_ok by reflexivity.
           erewrite bind_ok by reflexivity. rewrite (bind_ok _ _ _ _ _ Hshow).
           cbn [negb]. by erewrite try_except_raise by exact Hsend.
        -- rewrite Hout. simpl outbox. simpl dm_faults.
           unfold send_dm in Hsend. destruct (dm_faults w0) as [|[] fs0]; [done| |done].
           by injection Hsend as <-.
    + destruct (IH w0 Hus0 Hf0) as (w1 & Hrest & Hout & Hun & Hseen).
      exists w1. split; [|done].
      erewrite bind_ok; [exact Hrest|].
      unfold getitem. rewrite Hid. erewrite bind_ok by reflexivity.
      erewrite bind_ok by reflexivity. by rewrite (bind_ok _ _ _ _ _ Hshow).
Qed.

(** X20. Pushing one entry to user records that carry an integer
    [user_id], on healthy storage: the users whose filter passes are
    messaged in turn, each send takes the next fault flag, and the embed
    reaches exactly those whose send did not fail; a failed send stops
    nothing after it. Mailboxes and watermarks are not touched. *)
Theorem push_failures_are_isolated bot category title link summary published
    thumbnail_url us uids w :
  db_faults w = [] ->
  Forall2 (fun user uid => dict_get user "user_id" = Some (PInt uid)) us uids ->
  fst (post_entry_to_discord bot category title link summary published
         thumbnail_url us w) = Ok tt
  /\ outbox (snd (post_entry_to_discord bot category title link summary published
                    thumbnail_url us w))
     = outbox w ++
       map (fun uid => (uid, create_feed_embed title link summary category
                               published thumbnail_url))
           (reached (List.filter (fun uid => passes uid title summary w) uids)
                    (dm_faults w))
  /\ unread_posts (snd (post_entry_to_discord bot category title link summary
                          published thumbnail_url us w)) = unread_posts w
  /\ last_seen (snd (post_entry_to_discord bot category title link summary
                       published thumbnail_url us w)) = last_seen w.
Proof.
  intros Hf Hus.
  destruct (push_loop bot title summary
              (create_feed_embed title link summary category published thumbnail_url)
              us uids w w Hf Hus eq_refl Hf) as (w1 & Hrun & Hout & Hun & Hseen).
  unfold post_entry_to_discord. rewrite (try_except_ok _ _ _ _ _ Hrun). done.
Qed.

Lemma push_failures_are_isolated_witness :
  outbox (snd (post_entry_to_discord DiscordBot "tech" "Rust 2.0" "http://l" "" ""
                 None
                 [[("user_id", PInt 1)]; [("user_id", PInt 2)]; [("user_id", PInt 3)]]
                 (set_dm [true; false] []
                    (make_world [ann; bob] ∅ [] 0 [] None))))
  = outbox (set_dm [true; false] [] (make_world [ann; bob] ∅ [] 0 [] None)) ++
    map (fun uid => (uid, create_feed_embed "Rust 2.0" "http://l" "" "tech" "" None))
        (reached (List.filter
                    (fun uid => passes uid "Rust 2.0" ""
                                  (set_dm [true; false] []
                                     (make_world [ann; bob] ∅ [] 0 [] None)))
                    [1; 2; 3])
                 (dm_faults (set_dm [true; false] []
                               (make_world [ann; bob] ∅ [] 0 [] None)))).
Proof.
  refine (proj1 (proj2 (push_failures_are_isolated DiscordBot "tech" "Rust 2.0"
                          "http://l" "" "" None
                          [[("user_id", PInt 1)]; [("user_id", PInt 2)];
                           [("user_id", PInt 3)]] [1; 2; 3] _ _ _))).
  - reflexivity.
  - repeat constructor.
Defined.

(** The same run, spelled out: the send to the first user fails, the
    second and the third still get the embed. *)
Example push_failures_are_isolated_run :
  map fst
    (outbox (snd (post_entry_to_discord DiscordBot "tech" "Rust 2.0" "http://l" "" ""
                    None
                    [[("user_id", PInt 1)]; [("user_id", PInt 2)];
                     [("user_id", PInt 3)]]
                    (set_dm [true; false] []
                       (make_world [ann; bob] ∅ [] 0 [] None)))))
  = [2; 3].
Proof. vm_refl. Qed.

(** * The catalogue and the poll cycle *)

(** ** Running computations on the site *)

Lemma se_bind_ok {S A B} (m : SE S A) (k : A -> SE S B) s a s' :
  m s = (Ok a, s') -> @mbind (SE S) (@SE_bind S) A B k m s = k a s'.
Proof. intros Hm. unfold mbind, SE_bind, se_bind. by rewrite Hm. Qed.

Lemma se_bind_raise {S A B} (m : SE S A) (k : A -> SE S B) s e s' :
  m s = (Raise e, s') -> @mbind (SE S) (@SE_bind S) A B k m s = (Raise e, s').
Proof. intros Hm. unfold mbind, SE_bind, se_bind. by rewrite Hm. Qed.

Lemma se_try_ok {S A} (m : SE S A) h s a s' :
  m s = (Ok a, s') -> se_try m h s = (Ok a, s').
Proof. intros Hm. unfold se_try. by rewrite Hm. Qed.

Lemma se_try_raise {S A} (m : SE S A) h s e s' :
  m s = (Raise e, s') -> se_try m h s = h e s'.
Proof. intros Hm. unfold se_try. by rewrite Hm. Qed.

Lemma on_world_run {A} (m : Py A) s r w' :
  m (world s) = (r, w') -> on_world m s = (r, set_world w' s).
Proof. intros Hm. unfold on_world, zoom. by rewrite Hm. Qed.

Lemma set_world_same s : set_world (world s) s = s.
Proof. by destruct s. Qed.

(** A connection opened from the site. *)
Lemma on_world_connect s :
  exists r fs,
    on_world connect s = (r, set_world (set_db_faults fs (world s)) s)
    /\ (db_faults (world s) = [] -> r = Ok tt /\ fs = []).
Proof.
  unfold on_world, zoom, connect.
  destruct (db_faults (world s)) as [|f fs] eqn:Hf.
  - exists (Ok tt), []. split; [|done]. f_equal.
    destruct s as [w cs fs]; simpl in *. f_equal. destruct w; simpl in *; by subst.
  - by exists (if f then Raise OperationalError else Ok tt), fs.
Qed.

Lemma set_db_faults_healthy w : db_faults w = [] -> set_db_faults [] w = w.
Proof. intros Hf. destruct w; simpl in *; by subst. Qed.

Lemma get_all_feeds_run s :
  exists listed fs,
    get_all_feeds s = (Ok listed, set_world (set_db_faults fs (world s)) s)
    /\ (forall f, In f listed -> In f (map (fun f => (f_cat f, f_url f)) (feeds s)))
    /\ (db_faults (world s) = [] ->
        listed = map (fun f => (f_cat f, f_url f)) (feeds s) /\ fs = []).
Proof.
  unfold get_all_feeds.
  destruct (on_world_connect s) as ([[]|e] & fs & Hc & Hhealthy).
  - exists (map (fun f => (f_cat f, f_url f)) (feeds s)), fs.
    split; [|split; [done|]].
    + apply se_try_ok. rewrite (se_bind_ok _ _ _ _ _ Hc). done.
    + intros Hf. by destruct (Hhealthy Hf) as [_ ->].
  - exists [], fs. split; [|split; [done|]].
    + erewrite se_try_raise; [|by apply se_bind_raise]. done.
    + intros Hf. by destruct (Hhealthy Hf).
Qed.

(** ** The cycle *)

Lemma cycle_loop_run `{Utils} bot all_feeds total s :
  se_sum_each all_feeds
    (fun '(category, feed_url) =>
       @mbind (SE Site) (@SE_bind Site) _ _
         (fun new_count =>
            @mbind (SE Site) (@SE_bind Site) _ _
              (fun _ => @mret (SE Site) (@SE_ret Site) _ new_count) asyncio_sleep)
         (on_world (process_feed category feed_url bot))) total s
  = (Ok total, set_world (cycle_world all_feeds (world s)) s).
Proof.
  revert total s. induction all_feeds as [|[category feed_url] rest IH];
    intros total s.
  - simpl. unfold se_ret. by rewrite set_world_same.
  - cbn [se_sum_each]. unfold se_bind at 1.
    rewrite (se_bind_ok _ _ _ _ _
               (on_world_run _ s _ _ (process_feed_run category feed_url bot (world s)))).
    unfold asyncio_sleep, mbind, SE_bind, se_bind, mret, SE_ret, se_ret.
    rewrite IH. by rewrite Z.add_0_r.
Qed.

Lemma check_all_feeds_run `{Utils} bot s :
  exists listed fs,
    check_all_feeds bot s
    = (Ok tt, set_world (cycle_world listed (set_db_faults fs (world s))) s)
    /\ (forall f, In f listed -> In f (map (fun f => (f_cat f, f_url f)) (feeds s)))
    /\ (db_faults (world s) = [] ->
        listed = map (fun f => (f_cat f, f_url f)) (feeds s) /\ fs = []).
Proof.
  destruct (get_all_feeds_run s) as (listed & fs & Hall & Hin & Hhealthy).
  exists listed, fs. split; [|done].
  unfold check_all_feeds. apply se_try_ok.
  rewrite (se_bind_ok _ _ _ _ _ Hall).
  erewrite se_bind_ok; [|apply cycle_loop_run]. done.
Qed.

Lemma poll_world_frame url w :
  unread_posts (poll_world url w) = unread_posts w
  /\ outbox (poll_world url w) = outbox w
  /\ upstream (poll_world url w) = upstream w.
Proof.
  unfold poll_world. destruct (upstream w url); [|done].
  apply get_new_entries_frame.
Qed.

Lemma cycle_world_frame all_feeds w :
  unread_posts (cycle_world all_feeds w) = unread_posts w
  /\ outbox (cycle_world all_feeds w) = outbox w
  /\ upstream (cycle_world all_feeds w) = upstream w.
Proof.
  revert w. induction all_feeds as [|f rest IH]; intros w; [done|].
  unfold cycle_world in *. simpl.
  destruct (IH (poll_world (snd f) w)) as (-> & -> & ->).
  apply poll_world_frame.
Qed.

(** X21. A poll cycle never raises and, in every state of storage and of
    the network, leaves all mailboxes, the sent messages and the
    catalogue as they were. *)
Theorem cycle_delivers_nothing `{Utils} bot s :
  fst (check_all_feeds bot s) = Ok tt
  /\ unread_posts (world (snd (check_all_feeds bot s))) = unread_posts (world s)
  /\ outbox (world (snd (check_all_feeds bot s))) = outbox (world s)
  /\ feeds (snd (check_all_feeds bot s)) = feeds s
  /\ categories (snd (check_all_feeds bot s)) = categories s.
Proof.
  destruct (check_all_feeds_run bot s) as (listed & fs & -> & _).
  destruct (cycle_world_frame listed (set_db_faults fs (world s))) as (Hun & Hout & _).
  simpl. by rewrite Hun, Hout.
Qed.

(** ** Watermarks over a cycle *)

Lemma poll_world_healthy url w :
  db_faults w = [] -> db_faults (poll_world url w) = [].
Proof.
  intros Hf. unfold poll_world. destruct (upstream w url) as [feed|]; [|done].
  by destruct (get_new_entries_healthy url feed w Hf) as (_ & Hf' & _).
Qed.

Lemma poll_world_other url w url' :
  url' <> url ->
  last_seen (poll_world url w) !! url' = last_seen w !! url'.
Proof.
  intros Hne. unfold poll_world. destruct (upstream w url); [|done].
  by apply get_new_entries_other.
Qed.

Lemma poll_world_newest url w newest :
  db_faults w = [] -> newest_id w url newest ->
  last_entry_id <$> last_seen (poll_world url w) !! url = Some newest.
Proof.
  intros Hf (feed & entry & rest & Hup & Hent & <- & Hid).
  unfold poll_world. rewrite Hup. by apply (get_new_entries_watermark _ _ _ _ rest).
Qed.

(** A healthy poll of a feed whose watermark already stands at its
    newest entry, or that yields nothing, changes nothing. *)
Lemma poll_world_settled url w :
  db_faults w = [] ->
  (forall feed entry rest,
     upstream w url = Some feed -> entries feed = entry :: rest ->
     last_entry_id <$> last_seen w !! url = Some (get_entry_id entry)) ->
  poll_world url w = w.
Proof.
  intros Hf Hset. unfold poll_world.
  destruct (upstream w url) as [feed|] eqn:Hup; [|done].
  destruct (get_new_entries_healthy url feed w Hf) as (_ & _ & _ & Hsame).
  apply Hsame. destruct (entries feed) as [|entry rest] eqn:Hent; [done|].
  rewrite (Hset feed entry rest eq_refl Hent).
  rewrite novelty_loop_at_watermark by done. simpl. by rewrite andb_false_r.
Qed.

Lemma newest_id_frame w w' url newest :
  upstream w' = upstream w -> newest_id w url newest -> newest_id w' url newest.
Proof. intros Hup (feed & entry & rest & H1 & H2). exists feed, entry, rest. by rewrite Hup. Qed.

Lemma cycle_world_watermark all_feeds w url newest :
  db_faults w = [] ->
  newest_id w url newest ->
  In url (map snd all_feeds) \/ last_entry_id <$> last_seen w !! url = Some newest ->
  last_entry_id <$> last_seen (cycle_world all_feeds w) !! url = Some newest.
Proof.
  revert w. induction all_feeds as [|[cat u] rest IH]; intros w Hf Hnew Hcase.
  - by destruct Hcase as [[]|Hw].
  - unfold cycle_world. simpl. fold (cycle_world rest (poll_world u w)).
    destruct (poll_world_frame u w) as (_ & _ & Hup).
    apply IH; [by apply poll_world_healthy|by apply (newest_id_frame w)|].
    destruct (decide (u = url)) as [->|Hne].
    + right. by apply poll_world_newest.
    + destruct Hcase as [[Heq|Hin]|Hw]; [done|by left|].
      right. by rewrite poll_world_other.
Qed.

Lemma cycle_world_healthy all_feeds w :
  db_faults w = [] -> db_faults (cycle_world all_feeds w) = [].
Proof.
  revert w. induction all_feeds as [|f rest IH]; intros w Hf; [done|].
  unfold cycle_world. simpl. by apply IH, poll_world_healthy.
Qed.

Lemma cycle_world_settled all_feeds w :
  (forall f, In f all_feeds -> poll_world (snd f) w = w) ->
  cycle_world all_feeds w = w.
Proof.
  induction all_feeds as [|f rest IH]; intros Hset; [done|].
  unfold cycle_world. simpl. rewrite (Hset f (or_introl eq_refl)).
  apply IH. intros f' Hin. apply Hset. by right.
Qed.

(** X22. After a poll cycle on healthy storage, the watermark of every
    registered feed whose fetch is not empty and whose newest entry has
    a non-empty derived id is that id. *)
Theorem cycle_leaves_watermarks_at_newest `{Utils} bot s cat url newest :
  db_faults (world s) = [] ->
  In (cat, url) (map (fun f => (f_cat f, f_url f)) (feeds s)) ->
  newest_id (world s) url newest ->
  last_entry_id <$> last_seen (world (snd (check_all_feeds bot s))) !! url
  = Some newest.
Proof.
  intros Hf Hin Hnew.
  destruct (check_all_feeds_run bot s) as (listed & fs & -> & _ & Hhealthy).
  destruct (Hhealthy Hf) as [-> ->]. simpl.
  rewrite (set_db_faults_healthy _ Hf).
  apply cycle_world_watermark; [done|done|]. left.
  apply in_map_iff. by exists (cat, url).
Qed.

Lemma cycle_leaves_watermarks_at_newest_witness :
  last_entry_id <$>
    last_seen (world (snd (check_all_feeds (H := plain_utils) None
                             (make_site (make_world [ann] (seen_at "a") [] 0 []
                                                    (Some feed_ba))
                                        [("tech", demo_url)]))))
    !! demo_url
  = Some "b".
Proof.
  apply (cycle_leaves_watermarks_at_newest (H := plain_utils) None _ "tech").
  - reflexivity.
  - by left.
  - exists feed_ba, entry_b, [entry_a]. repeat split; by vm_compute.
Defined.

(** X23. A second poll cycle, run on healthy storage right after a first
    one while the sources have not changed, changes nothing at all,
    provided every registered feed that yields entries has a newest
    entry with a non-empty derived id. *)
Theorem second_cycle_changes_nothing `{Utils} bot s :
  db_faults (world s) = [] ->
  well_identified (map (fun f => (f_cat f, f_url f)) (feeds s)) (world s) ->
  snd (check_all_feeds bot (snd (check_all_feeds bot s)))
  = snd (check_all_feeds bot s).
Proof.
  intros Hf Hwell.
  destruct (check_all_feeds_run bot s) as (listed & fs & Hrun & _ & Hhealthy).
  destruct (Hhealthy Hf) as [-> ->]. rewrite Hrun. simpl snd.
  rewrite (set_db_faults_healthy _ Hf).
  set (L := map (fun f => (f_cat f, f_url f)) (feeds s)) in *.
  set (w1 := cycle_world L (world s)).
  assert (Hf1 : db_faults w1 = []) by by apply cycle_world_healthy.
  destruct (cycle_world_frame L (world s)) as (_ & _ & Hup). fold w1 in Hup.
  destruct (check_all_feeds_run bot (set_world w1 s))
    as (listed' & fs' & Hrun' & _ & Hhealthy').
  destruct (Hhealthy' Hf1) as [-> ->]. rewrite Hrun'. simpl.
  rewrite (set_db_faults_healthy _ Hf1). fold L.
  rewrite cycle_world_settled; [done|].
  intros [cat url] Hin. simpl. apply poll_world_settled; [done|].
  intros feed entry rest Hfeed Hent. rewrite Hup in Hfeed.
  apply cycle_world_watermark; [done| |].
  - exists feed, entry, rest. repeat split; try done.
    by apply (Hwell cat url feed entry rest).
  - left. apply in_map_iff. by exists (cat, url).
Qed.

Lemma second_cycle_changes_nothing_witness :
  snd (check_all_feeds (H := plain_utils) None
         (snd (check_all_feeds (H := plain_utils) None
                 (make_site (make_world [ann] (seen_at "a") [] 0 [] (Some feed_ba))
                            [("tech", demo_url)]))))
  = snd (check_all_feeds (H := plain_utils) None
           (make_site (make_world [ann] (seen_at "a") [] 0 [] (Some feed_ba))
                      [("tech", demo_url)])).
Proof.
  apply (second_cycle_changes_nothing (H := plain_utils)).
  - reflexivity.
  - intros cat url feed entry rest [[= <- <-]|[]] Hfeed Hent.
    change (Some feed_ba = Some feed) in Hfeed. injection Hfeed as <-.
    injection Hent as <- _. by vm_compute.
Defined.

(** ** The catalogue *)

Ltac unfold_se :=
  unfold se_try, mbind, SE_bind, se_bind, mret, SE_ret, se_ret, se_get,
         se_modify, on_world, zoom, asyncio_sleep in *.

Lemma on_world_connect_healthy s :
  db_faults (world s) = [] -> on_world connect s = (Ok tt, s).
Proof.
  intros Hf. unfold on_world, zoom, connect. rewrite Hf. by destruct s.
Qed.

Lemma add_category_healthy cat s :
  db_faults (world s) = [] ->
  exists w',
    add_category cat s
    = (Ok true,
       {| world := w';
          categories :=
            if has_category cat (categories s) then categories s
            else categories s ++
                 [{| c_cat := cat;
                     c_created_at := clock (world s) (clock_reads (world s)) |}];
          feeds := feeds s |})
    /\ db_faults w' = []
    /\ clock w' = clock (world s)
    /\ users w' = users (world s)
    /\ last_seen w' = last_seen (world s)
    /\ unread_posts w' = unread_posts (world s).
Proof.
  intros Hf. exists (set_clock_reads (S (clock_reads (world s))) (world s)).
  split; [|done].
  unfold add_category. unfold_se. unfold connect, utcnow. rewrite Hf. simpl.
  by destruct (has_category cat (categories s)).
Qed.

Lemma add_feed_healthy cat url s :
  db_faults (world s) = [] ->
  exists s' now,
    add_feed cat url s = (Ok true, s')
    /\ db_faults (world s') = []
    /\ categories s'
       = (if has_category cat (categories s) then categories s
          else categories s ++
               [{| c_cat := cat;
                   c_created_at := clock (world s) (clock_reads (world s)) |}])
    /\ feeds s'
       = (if has_feed cat url (feeds s) then feeds s
          else feeds s ++ [{| f_cat := cat; f_url := url; f_added_at := now |}])
    /\ users (world s') = users (world s)
    /\ last_seen (world s') = last_seen (world s)
    /\ unread_posts (world s') = unread_posts (world s).
Proof.
  intros Hf.
  destruct (add_category_healthy cat s Hf) as (w1 & Hadd & Hf1 & _ & Hu & Hl & Hp).
  eexists _, (clock w1 (clock_reads w1)). split.
  - unfold add_feed. apply se_try_ok.
    rewrite (se_bind_ok _ _ _ _ _ (on_world_connect_healthy s Hf)).
    rewrite (se_bind_ok _ _ _ _ _ Hadd).
    unfold_se. unfold utcnow. cbn [world categories feeds set_world fst snd]. done.
  - cbn [snd]. by destruct (has_feed cat url (feeds s)).
Qed.

Lemma get_feeds_by_category_healthy cat s :
  db_faults (world s) = [] ->
  get_feeds_by_category cat s
  = (Ok (map f_url (List.filter (fun f => String.eqb (f_cat f) cat) (feeds s))), s).
Proof.
  intros Hf. unfold get_feeds_by_category. unfold_se. unfold connect.
  rewrite Hf. by destruct s.
Qed.

Lemma get_all_categories_healthy s :
  db_faults (world s) = [] ->
  get_all_categories s = (Ok (order_by_text (map c_cat (categories s))), s).
Proof.
  intros Hf. unfold get_all_categories. unfold_se. unfold connect.
  rewrite Hf. by destruct s.
Qed.

Lemma In_insert_asc x y l : In x (insert_asc y l) <-> x = y \/ In x l.
Proof.
  induction l as [|z l IH]; simpl; [intuition|].
  destruct (String.leb y z); simpl; rewrite ?IH; intuition.
Qed.

Lemma In_order_by_text x l : In x (order_by_text l) <-> In x l.
Proof.
  induction l as [|y l IH]; [done|].
  unfold order_by_text in *. simpl. rewrite In_insert_asc, IH. intuition.
Qed.

Lemma has_feed_listed cat url fs :
  has_feed cat url fs = true <->
  In url (map f_url (List.filter (fun f => String.eqb (f_cat f) cat) fs)).
Proof.
  unfold has_feed. induction fs as [|f fs IH]; simpl; [done|].
  destruct (String.eqb_spec (f_cat f) cat) as [Hc|Hc]; simpl.
  - destruct (String.eqb_spec (f_url f) url) as [Hu|Hu]; simpl; rewrite ?IH;
      intuition.
  - done.
Qed.

Lemma has_category_listed cat cs :
  has_category cat cs = true <-> In cat (map c_cat cs).
Proof.
  unfold has_category. induction cs as [|c cs IH]; simpl; [done|].
  destruct (String.eqb_spec (c_cat c) cat); simpl; rewrite ?IH; intuition.
Qed.

(** X24. On healthy storage [add_feed] returns True; afterwards the
    category lists the url beside exactly the urls it listed before, the
    category itself is among the categories, and no other category
    lists anything else than before. *)
Theorem add_feed_lists_feed cat url s :
  db_faults (world s) = [] ->
  fst (add_feed cat url s) = Ok true
  /\ exists before after cats,
       fst (get_feeds_by_category cat s) = Ok before
       /\ fst (get_feeds_by_category cat (snd (add_feed cat url s))) = Ok after
       /\ (forall u, In u after <-> u = url \/ In u before)
       /\ fst (get_all_categories (snd (add_feed cat url s))) = Ok cats
       /\ In cat cats
       /\ forall cat', cat' <> cat ->
            fst (get_feeds_by_category cat' (snd (add_feed cat url s)))
            = fst (get_feeds_by_category cat' s).
Proof.
  intros Hf.
  destruct (add_feed_healthy cat url s Hf)
    as (s' & now & Hadd & Hf' & Hcats & Hfeeds & _).
  rewrite Hadd. split; [done|]. simpl snd.
  eexists _, _, _.
  rewrite (get_feeds_by_category_healthy cat s Hf).
  rewrite (get_feeds_by_category_healthy cat s' Hf').
  rewrite (get_all_categories_healthy s' Hf'). cbn [fst]. rewrite Hcats, Hfeeds.
  split; [done|]. split; [done|]. split; [|split; [done|split]].
  - intros u. destruct (has_feed cat url (feeds s)) eqn:Hhas.
    + apply has_feed_listed in Hhas. split; [by right|]. by intros [->|Hin].
    + rewrite List.filter_app, map_app, in_app_iff. simpl.
      rewrite String.eqb_refl. simpl. intuition.
  - apply In_order_by_text.
    destruct (has_category cat (categories s)) eqn:Hhas.
    + by apply has_category_listed.
    + rewrite map_app, in_app_iff. right. by left.
  - intros cat' Hne.
    rewrite (get_feeds_by_category_healthy cat' s Hf).
    rewrite (get_feeds_by_category_healthy cat' s' Hf'). cbn [fst].
    rewrite Hfeeds. destruct (has_feed cat url (feeds s)); [done|].
    rewrite List.filter_app. simpl.
    destruct (String.eqb_spec cat cat'); [by subst|]. by rewrite app_nil_r.
Qed.

Lemma add_feed_lists_feed_witness :
  fst (add_feed "tech" demo_url (make_site (make_world [ann] ∅ [] 0 [] None) []))
  = Ok true
  /\ exists before after cats,
       fst (get_feeds_by_category "tech"
              (make_site (make_world [ann] ∅ [] 0 [] None) [])) = Ok before
       /\ fst (get_feeds_by_category "tech"
                 (snd (add_feed "tech" demo_url
                         (make_site (make_world [ann] ∅ [] 0 [] None) []))))
          = Ok after
       /\ (forall u, In u after <-> u = demo_url \/ In u before)
       /\ fst (get_all_categories
                 (snd (add_feed "tech" demo_url
                         (make_site (make_world [ann] ∅ [] 0 [] None) []))))
          = Ok cats
       /\ In "tech" cats
       /\ forall cat', cat' <> "tech" ->
            fst (get_feeds_by_category cat'
                   (snd (add_feed "tech" demo_url
                           (make_site (make_world [ann] ∅ [] 0 [] None) []))))
            = fst (get_feeds_by_category cat'
                     (make_site (make_world [ann] ∅ [] 0 [] None) [])).
Proof.
  apply (add_feed_lists_feed "tech" demo_url
           (make_site (make_world [ann] ∅ [] 0 [] None) [])).
  reflexivity.
Defined.

Lemma remove_feed_healthy cat url s :
  db_faults (world s) = [] ->
  remove_feed cat url s
  = (Ok true,
     set_feeds
       (List.filter (fun f => negb (String.eqb (f_cat f) cat && String.eqb (f_url f) url))
                    (feeds s)) s).
Proof.
  intros Hf. unfold remove_feed. unfold_se. unfold connect. rewrite Hf.
  by destruct s.
Qed.

(** X25. On healthy storage [remove_feed] returns True; afterwards the
    category lists the urls it listed before except the removed one,
    every other category lists what it listed before, and the category
    itself stays in the table of categories, also when its last feed
    has gone. *)
Theorem remove_feed_unlists_feed cat url s :
  db_faults (world s) = [] ->
  fst (remove_feed cat url s) = Ok true
  /\ categories (snd (remove_feed cat url s)) = categories s
  /\ world (snd (remove_feed cat url s)) = world s
  /\ exists before after,
       fst (get_feeds_by_category cat s) = Ok before
       /\ fst (get_feeds_by_category cat (snd (remove_feed cat url s))) = Ok after
       /\ (forall u, In u after <-> u <> url /\ In u before)
       /\ forall cat', cat' <> cat ->
            fst (get_feeds_by_category cat' (snd (remove_feed cat url s)))
            = fst (get_feeds_by_category cat' s).
Proof.
  intros Hf. rewrite (remove_feed_healthy cat url s Hf). cbn [fst snd].
  split; [done|]. split; [done|]. split; [done|].
  eexists _, _.
  rewrite (get_feeds_by_category_healthy cat s Hf).
  rewrite (get_feeds_by_category_healthy cat (set_feeds _ s) Hf).
  cbn [fst feeds set_feeds].
  split; [done|]. split; [done|]. split.
  - intros u. rewrite !in_map_iff. split.
    + intros (f & <- & Hin).
      apply filter_In in Hin as [Hin Hc]. apply filter_In in Hin as [Hin Hkeep].
      rewrite Hc in Hkeep. simpl in Hkeep.
      apply negb_true_iff, String.eqb_neq in Hkeep.
      split; [done|]. exists f. split; [done|]. by apply filter_In.
    + intros (Hne & f & <- & Hin). apply filter_In in Hin as [Hin Hc].
      exists f. split; [done|]. apply filter_In. split; [|done].
      apply filter_In. split; [done|]. rewrite Hc. simpl.
      by apply negb_true_iff, String.eqb_neq.
  - intros cat' Hne.
    rewrite (get_feeds_by_category_healthy cat' s Hf).
    rewrite (get_feeds_by_category_healthy cat' (set_feeds _ s) Hf).
    cbn [fst feeds set_feeds]. f_equal. f_equal.
    induction (feeds s) as [|f fs IH]; [done|]. simpl.
    destruct (String.eqb_spec (f_cat f) cat) as [Hc|Hc]; simpl.
    + destruct (String.eqb_spec (f_cat f) cat') as [Hc'|Hc']; [congruence|].
      destruct (String.eqb (f_url f) url); simpl; [done|].
      destruct (String.eqb_spec (f_cat f) cat'); [done|]. done.
    + destruct (String.eqb (f_cat f) cat'); by rewrite IH.
Qed.

Lemma remove_feed_unlists_feed_witness :
  fst (remove_feed "tech" demo_url
         (make_site (make_world [ann] ∅ [] 0 [] None) [("tech", demo_url)]))
  = Ok true
  /\ categories (snd (remove_feed "tech" demo_url
                        (make_site (make_world [ann] ∅ [] 0 [] None)
                                   [("tech", demo_url)])))
     = categories (make_site (make_world [ann] ∅ [] 0 [] None) [("tech", demo_url)])
  /\ world (snd (remove_feed "tech" demo_url
                   (make_site (make_world [ann] ∅ [] 0 [] None)
                              [("tech", demo_url)])))
     = world (make_site (make_world [ann] ∅ [] 0 [] None) [("tech", demo_url)])
  /\ exists before after,
       fst (get_feeds_by_category "tech"
              (make_site (make_world [ann] ∅ [] 0 [] None) [("tech", demo_url)]))
       = Ok before
       /\ fst (get_feeds_by_category "tech"
                 (snd (remove_feed "tech" demo_url
                         (make_site (make_world [ann] ∅ [] 0 [] None)
                                    [("tech", demo_url)]))))
          = Ok after
       /\ (forall u, In u after <-> u <> demo_url /\ In u before)
       /\ forall cat', cat' <> "tech" ->
            fst (get_feeds_by_category cat'
                   (snd (remove_feed "tech" demo_url
                           (make_site (make_world [ann] ∅ [] 0 [] None)
                                      [("tech", demo_url)]))))
            = fst (get_feeds_by_category cat'
                     (make_site (make_world [ann] ∅ [] 0 [] None)
                                [("tech", demo_url)])).
Proof.
  apply (remove_feed_unlists_feed "tech" demo_url
           (make_site (make_world [ann] ∅ [] 0 [] None) [("tech", demo_url)])).
  reflexivity.
Defined.

Lemma delete_category_healthy cat s :
  db_faults (world s) = [] ->
  delete_category cat s
  = (Ok true,
     {| world := world s;
        categories := List.filter (fun c => negb (String.eqb (c_cat c) cat)) (categories s);
        feeds := List.filter (fun f => negb (String.eqb (f_cat f) cat)) (feeds s) |}).
Proof.
  intros Hf. unfold delete_category. unfold_se. unfold connect. rewrite Hf.
  by destruct s.
Qed.

(** X26. On healthy storage [delete_category] returns True; afterwards
    the category is not among the categories and lists no feed, every
    other category is listed as before with the feeds it had, and the
    users are untouched, so that a subscription to the deleted category
    stays in the user's record. *)
Theorem delete_category_removes_its_feeds cat s :
  db_faults (world s) = [] ->
  fst (delete_category cat s) = Ok true
  /\ world (snd (delete_category cat s)) = world s
  /\ fst (get_feeds_by_category cat (snd (delete_category cat s))) = Ok []
  /\ (exists before after,
        fst (get_all_categories s) = Ok before
        /\ fst (get_all_categories (snd (delete_category cat s))) = Ok after
        /\ forall c, In c after <-> c <> cat /\ In c before)
  /\ forall cat', cat' <> cat ->
       fst (get_feeds_by_category cat' (snd (delete_category cat s)))
       = fst (get_feeds_by_category cat' s).
Proof.
  intros Hf. rewrite (delete_category_healthy cat s Hf). cbn [fst snd world].
  split; [done|]. split; [done|]. split; [|split].
  - rewrite get_feeds_by_category_healthy by done. cbn [fst feeds]. f_equal.
    induction (feeds s) as [|f fs IH]; [done|]. simpl.
    destruct (String.eqb (f_cat f) cat) eqn:Hc; simpl; [done|]. by rewrite Hc.
  - eexists _, _.
    rewrite (get_all_categories_healthy s Hf).
    rewrite get_all_categories_healthy by done. cbn [fst categories].
    split; [done|]. split; [done|].
    intros c. rewrite !In_order_by_text, !in_map_iff. split.
    + intros (r & <- & Hin). apply filter_In in Hin as [Hin Hkeep].
      apply negb_true_iff, String.eqb_neq in Hkeep. split; [done|]. by exists r.
    + intros (Hne & r & <- & Hin). exists r. split; [done|].
      apply filter_In. split; [done|]. by apply negb_true_iff, String.eqb_neq.
  - intros cat' Hne.
    rewrite (get_feeds_by_category_healthy cat' s Hf).
    rewrite get_feeds_by_category_healthy by done. cbn [fst feeds]. f_equal. f_equal.
    induction (feeds s) as [|f fs IH]; [done|]. simpl.
    destruct (String.eqb_spec (f_cat f) cat) as [Hc|Hc]; simpl.
    + destruct (String.eqb_spec (f_cat f) cat'); [congruence|done].
    + destruct (String.eqb (f_cat f) cat'); by rewrite IH.
Qed.

Lemma delete_category_removes_its_feeds_witness :
  fst (delete_category "tech"
         (make_site (make_world [ann] ∅ [] 0 [] None) [("tech", demo_url)]))
  = Ok true
  /\ world (snd (delete_category "tech"
                   (make_site (make_world [ann] ∅ [] 0 [] None)
                              [("tech", demo_url)])))
     = world (make_site (make_world [ann] ∅ [] 0 [] None) [("tech", demo_url)])
  /\ fst (get_feeds_by_category "tech"
            (snd (delete_category "tech"
                    (make_site (make_world [ann] ∅ [] 0 [] None)
                               [("tech", demo_url)]))))
     = Ok []
  /\ (exists before after,
        fst (get_all_categories
               (make_site (make_world [ann] ∅ [] 0 [] None) [("tech", demo_url)]))
        = Ok before
        /\ fst (get_all_categories
                  (snd (delete_category "tech"
                          (make_site (make_world [ann] ∅ [] 0 [] None)
                                     [("tech", demo_url)]))))
           = Ok after
        /\ forall c, In c after <-> c <> "tech" /\ In c before)
  /\ forall cat', cat' <> "tech" ->
       fst (get_feeds_by_category cat'
              (snd (delete_category "tech"
                      (make_site (make_world [ann] ∅ [] 0 [] None)
                                 [("tech", demo_url)]))))
       = fst (get_feeds_by_category cat'
                (make_site (make_world [ann] ∅ [] 0 [] None) [("tech", demo_url)])).
Proof.
  apply (delete_category_removes_its_feeds "tech"
           (make_site (make_world [ann] ∅ [] 0 [] None) [("tech", demo_url)])).
  reflexivity.
Defined.

(** ** Loops with an invariant *)

Lemma se_for_each_inv {S A} (Q : S -> S -> Prop) (xs : list A)
    (body : A -> SE S unit) :
  (forall s, Q s s) ->
  (forall s1 s2 s3, Q s1 s2 -> Q s2 s3 -> Q s1 s3) ->
  (forall x s, exists s', body x s = (Ok tt, s') /\ Q s s') ->
  forall s, exists s', se_for_each xs body s = (Ok tt, s') /\ Q s s'.
Proof.
  intros Hrefl Htrans Hbody. induction xs as [|x xs IH]; intros s.
  - by exists s.
  - destruct (Hbody x s) as (s1 & Hx & Hq1). destruct (IH s1) as (s2 & Hxs & Hq2).
    exists s2. split; [|by eapply Htrans].
    cbn [se_for_each]. unfold se_bind. by rewrite Hx.
Qed.

Lemma se_sum_each_inv {S A} (R : S -> Z -> S -> Prop) (xs : list A)
    (body : A -> SE S Z) :
  (forall s, R s 0 s) ->
  (forall s1 s2 s3 n m, R s1 n s2 -> R s2 m s3 -> R s1 (n + m) s3) ->
  (forall x s, exists n s', body x s = (Ok n, s') /\ R s n s') ->
  forall total s,
    exists n s', se_sum_each xs body total s = (Ok (total + n), s') /\ R s n s'.
Proof.
  intros Hrefl Htrans Hbody. induction xs as [|x xs IH]; intros total s.
  - exists 0, s. split; [|done]. simpl. unfold se_ret. by rewrite Z.add_0_r.
  - destruct (Hbody x s) as (n & s1 & Hx & Hr1).
    destruct (IH (total + n) s1) as (m & s2 & Hxs & Hr2).
    exists (n + m), s2. split; [|by eapply Htrans].
    cbn [se_sum_each]. unfold se_bind. rewrite Hx, Hxs. by rewrite Z.add_assoc.
Qed.

Lemma in_frame_run {A} (m : Py A) f r w' :
  m (world (site f)) = (r, w') ->
  in_frame m f = (r, set_site (set_world w' (site f)) f).
Proof. intros Hm. unfold in_frame, on_site, on_world, zoom. by rewrite Hm. Qed.

Lemma get_feeds_by_category_run cat s :
  exists urls fs,
    get_feeds_by_category cat s
    = (Ok urls, set_world (set_db_faults fs (world s)) s).
Proof.
  unfold get_feeds_by_category.
  destruct (on_world_connect s) as ([[]|e] & fs & Hc & _).
  - eexists _, fs. apply se_try_ok. rewrite (se_bind_ok _ _ _ _ _ Hc). done.
  - exists [], fs. erewrite se_try_raise; [|by apply se_bind_raise]. done.
Qed.

(** ** The first fill of the mailboxes *)

(** X27. [populate_initial_posts] returns 0 and fills no mailbox, in
    every state of the tables, of storage and of the network: for each
    category it asks [get_users_by_cat] for the subscribers, is told that
    there are none, and goes on to the next category without a fetch. *)
Theorem populate_fills_no_mailbox `{Utils} bot s :
  fst (populate_initial_posts bot s) = Ok 0
  /\ unread_posts (world (snd (populate_initial_posts bot s))) = unread_posts (world s)
  /\ last_seen (world (snd (populate_initial_posts bot s))) = last_seen (world s)
  /\ outbox (world (snd (populate_initial_posts bot s))) = outbox (world s)
  /\ users (world (snd (populate_initial_posts bot s))) = users (world s).
Proof.
  set (Q := fun f f' : Frame =>
              total_posts f' = total_posts f
              /\ unread_posts (world (site f')) = unread_posts (world (site f))
              /\ last_seen (world (site f')) = last_seen (world (site f))
              /\ outbox (world (site f')) = outbox (world (site f))
              /\ users (world (site f')) = users (world (site f))).
  set (f0 := {| site := s; total_posts := 0 |}).
  destruct (get_all_feeds_run s) as (listed & fs & Hall & _).
  assert (Hall' : on_site get_all_feeds f0
                  = (Ok listed,
                     set_site (set_world (set_db_faults fs (world s)) s) f0)).
  { unfold on_site, zoom. simpl. by rewrite Hall. }
  unfold populate_initial_posts. fold f0. unfold populate_frame, se_try.
  rewrite (se_bind_ok _ _ _ _ _ Hall').
  lazymatch goal with
  | |- context [se_for_each (feeds_by_cat listed) ?body] =>
      assert (Hbody : forall x f, exists f', body x f = (Ok tt, f') /\ Q f f')
  end.
  { intros [cat urls] f. cbv beta iota.
    destruct (get_users_by_cat_run cat (world (site f))) as [fs' Hu].
    rewrite (se_bind_ok _ _ _ _ _ (in_frame_run _ f _ _ Hu)).
    eexists. split; [reflexivity|]. by unfold Q. }
  destruct (se_for_each_inv Q (feeds_by_cat listed) _
              ltac:(by unfold Q)
              ltac:(unfold Q; intros ??? (-> & -> & -> & -> & ->); done)
              Hbody
              (set_site (set_world (set_db_faults fs (world s)) s) f0))
    as (f' & Hloop & Ht & Hp & Hl & Ho & Hu).
  rewrite (se_bind_ok _ _ _ _ _ Hloop).
  unfold mbind, SE_bind, se_bind, se_get, mret, SE_ret, se_ret. cbn [fst snd].
  by rewrite Ht, Hp, Hl, Ho, Hu.
Qed.

(** ** Previews of the categories *)

Lemma send_latest_feed_preview_run `{Utils} bot user_id category url w :
  exists (b : bool) msgs w',
    send_latest_feed_preview bot user_id category url w = (Ok b, w')
    /\ outbox w' = outbox w ++ msgs
    /\ (if b then 1 else 0) = Z.of_nat (length msgs)
    /\ Forall (fun m => fst m = user_id) msgs
    /\ last_seen w' = last_seen w
    /\ unread_posts w' = unread_posts w
    /\ users w' = users w.
Proof.
  unfold send_latest_feed_preview, fetch_feed. unfold_py.
  destruct (upstream w url) as [feed|] eqn:Hfeed;
    [|exists false, [], w; by rewrite app_nil_r].
  destruct (entries feed) as [|entry rest] eqn:Hent;
    [exists false, [], w; by rewrite app_nil_r|].
  match goal with
  | |- context [send_dm bot user_id ?m w] =>
      destruct (send_dm_frame bot user_id m w) as [fs [-> | ->]]
  end.
  - eexists true, [_], _. split; [done|]. repeat split. by constructor.
  - eexists false, [], _. split; [done|]. simpl. by rewrite app_nil_r.
Qed.

(** X28. [send_category_previews] never raises and returns the number of
    embeds it has delivered, all of them to the user it was called for;
    it moves no watermark and fills no mailbox. *)
Theorem previews_count_what_was_sent `{Utils} bot user_id cats s :
  exists msgs,
    fst (send_category_previews bot user_id cats s) = Ok (Z.of_nat (length msgs))
    /\ outbox (world (snd (send_category_previews bot user_id cats s)))
       = outbox (world s) ++ msgs
    /\ Forall (fun m => fst m = user_id) msgs
    /\ last_seen (world (snd (send_category_previews bot user_id cats s)))
       = last_seen (world s)
    /\ unread_posts (world (snd (send_category_previews bot user_id cats s)))
       = unread_posts (world s).
Proof.
  set (R := fun (s : Site) (n : Z) (s' : Site) =>
              exists msgs,
                n = Z.of_nat (length msgs)
                /\ outbox (world s') = outbox (world s) ++ msgs
                /\ Forall (fun m => fst m = user_id) msgs
                /\ last_seen (world s') = last_seen (world s)
                /\ unread_posts (world s') = unread_posts (world s)).
  assert (Hrefl : forall s, R s 0 s).
  { intros s0. exists []. by rewrite app_nil_r. }
  assert (Htrans : forall s1 s2 s3 n m, R s1 n s2 -> R s2 m s3 -> R s1 (n + m) s3).
  { intros s1 s2 s3 n m (l1 & -> & Ho1 & Hf1 & Hl1 & Hp1)
           (l2 & -> & Ho2 & Hf2 & Hl2 & Hp2).
    exists (l1 ++ l2). rewrite length_app, Nat2Z.inj_add, Ho2, Ho1, Hl2, Hl1, Hp2, Hp1.
    rewrite app_assoc. repeat split; try done. by apply Forall_app. }
  unfold send_category_previews.
  lazymatch goal with
  | |- context [se_sum_each cats ?body 0] =>
      assert (Hbody : forall x s, exists n s', body x s = (Ok n, s') /\ R s n s')
  end.
  { intros category s0. cbv beta.
    destruct (get_feeds_by_category_run category s0) as (urls & fs & Hurls).
    rewrite (se_bind_ok _ _ _ _ _ Hurls).
    lazymatch goal with
    | |- context [se_sum_each urls ?inner 0] =>
        assert (Hinner : forall x s, exists n s', inner x s = (Ok n, s') /\ R s n s')
    end.
    { intros url s1. cbv beta.
      destruct (send_latest_feed_preview_run bot user_id category url (world s1))
        as (b & msgs & w' & Hrun & Ho & Hn & Hto & Hl & Hp & _).
      rewrite (se_bind_ok _ _ _ _ _ (on_world_run _ s1 _ _ Hrun)).
      eexists _, _. split; [reflexivity|]. by exists msgs. }
    destruct (se_sum_each_inv R urls _ Hrefl Htrans Hinner 0
                (set_world (set_db_faults fs (world s0)) s0))
      as (n & s' & Hsum & msgs & Hr).
    exists n, s'. rewrite Z.add_0_l in Hsum. split; [done|]. by exists msgs. }
  destruct (se_sum_each_inv R cats _ Hrefl Htrans Hbody 0 s)
    as (n & s' & Hsum & msgs & -> & Hr).
  rewrite Z.add_0_l in Hsum. exists msgs.
  rewrite (se_try_ok _ _ _ _ _ Hsum). done.
Qed.

(** ** What a user sees of the catalogue *)

Lemma get_user_cats_run uid w :
  exists fs, get_user_cats uid w = (Ok (PList []), set_db_faults fs w).
Proof.
  destruct (get_user_shape uid w) as (user & fs & Hget & Hshape). exists fs.
  unfold get_user_cats. destruct user as [u|].
  - erewrite try_except_raise;
      [|rewrite (bind_ok _ _ _ _ _ Hget); unfold getitem;
        by rewrite (Hshape u eq_refl)].
    done.
  - erewrite try_except_ok; [|by rewrite (bind_ok _ _ _ _ _ Hget)]. done.
Qed.

(** X29. [get_user_feeds] returns the empty dict and [get_user_stats]
    the empty dict for every user, subscribed or not, in every state of
    the tables: the categories of the user are read under the key
    [subscribed_cats], which no user record has. *)
Theorem profile_views_are_empty uid s :
  fst (get_user_feeds uid s) = Ok (PDict [])
  /\ fst (get_user_stats uid s) = Ok [].
Proof.
  split.
  - destruct (get_user_cats_run uid (world s)) as [fs Hcats].
    unfold get_user_feeds. erewrite se_try_ok; [done|].
    rewrite (se_bind_ok _ _ _ _ _ (on_world_run _ s _ _ Hcats)). done.
  - destruct (get_user_shape uid (world s)) as (user & fs & Hget & Hshape).
    unfold get_user_stats. destruct user as [u|].
    + erewrite se_try_raise;
        [|rewrite (se_bind_ok _ _ _ _ _ (on_world_run _ s _ _ Hget));
          apply se_bind_raise, on_world_run; unfold getitem;
          by rewrite (Hshape u eq_refl)].
      done.
    + erewrite se_try_ok;
        [|by rewrite (se_bind_ok _ _ _ _ _ (on_world_run _ s _ _ Hget))].
      done.
Qed.

(** ** The manual check *)

Lemma category_loop_run `{Utils} bot category urls total s :
  se_sum_each urls
    (fun feed_url =>
       @mbind (SE Site) (@SE_bind Site) _ _
         (fun new_count =>
            @mbind (SE Site) (@SE_bind Site) _ _
              (fun _ => @mret (SE Site) (@SE_ret Site) _ new_count) asyncio_sleep)
         (on_world (process_feed category feed_url bot))) total s
  = (Ok total,
     set_world (cycle_world (map (fun url => (category, url)) urls) (world s)) s).
Proof.
  revert total s. induction urls as [|feed_url rest IH]; intros total s.
  - simpl. unfold se_ret. by rewrite set_world_same.
  - cbn [se_sum_each]. unfold se_bind at 1.
    rewrite (se_bind_ok _ _ _ _ _
               (on_world_run _ s _ _ (process_feed_run category feed_url bot (world s)))).
    unfold asyncio_sleep, mbind, SE_bind, se_bind, mret, SE_ret, se_ret.
    rewrite IH. by rewrite Z.add_0_r.
Qed.

(** X30. [manual_feed_check] never raises, and whatever it is asked to
    check, a feed, a category or everything, in whatever state the
    sources are: a count of new entries in its report is 0, and no
    mailbox and no sent message has changed. *)
Theorem manual_check_reports_nothing_new `{Utils} category feed_url bot s :
  exists report,
    fst (manual_feed_check category feed_url bot s) = Ok report
    /\ (forall n, dict_get report "new_entries" = Some n -> n = PInt 0)
    /\ unread_posts (world (snd (manual_feed_check category feed_url bot s)))
       = unread_posts (world s)
    /\ outbox (world (snd (manual_feed_check category feed_url bot s)))
       = outbox (world s).
Proof.
  unfold manual_feed_check.
  destruct (truthy_id feed_url) eqn:Hurl; [|destruct (truthy_id category) eqn:Hcat].
  - assert (Hgo : forall (c : string) s0,
              unread_posts (world s0) = unread_posts (world s) ->
              outbox (world s0) = outbox (world s) ->
              exists report s',
                (@mbind (SE Site) (@SE_bind Site) _ _
                   (fun new_count =>
                      @mret (SE Site) (@SE_ret Site) _
                        [("success", PBool true); ("category", PStr c);
                         ("feed_url", PStr (default "" feed_url));
                         ("new_entries", PInt new_count)])
                   (on_world (process_feed c (default "" feed_url) bot))) s0
                = (Ok report, s')
                /\ (forall n, dict_get report "new_entries" = Some n -> n = PInt 0)
                /\ unread_posts (world s') = unread_posts (world s)
                /\ outbox (world s') = outbox (world s)).
    { intros c s0 Hp Ho.
      pose proof (process_feed_frame c (default "" feed_url) bot (world s0))
        as (Hp' & Ho' & _).
      rewrite (process_feed_run c (default "" feed_url) bot (world s0)) in Hp', Ho'.
      eexists _, _. split.
      - rewrite (se_bind_ok _ _ _ _ _
                   (on_world_run _ s0 _ _
                      (process_feed_run c (default "" feed_url) bot (world s0)))).
        reflexivity.
      - split; [by intros n [= <-]|]. simpl in *. by rewrite Hp', Ho'. }
    destruct (truthy_id category) eqn:Hcat; cbn [negb].
    + destruct (Hgo (default "" category) s eq_refl eq_refl)
        as (report & s' & Hrun & Hcount & Hp & Ho).
      exists report. erewrite se_try_ok; [done|].
      rewrite (se_bind_ok _ _ _ _ _ (eq_refl : se_ret category s = (Ok category, s))).
      rewrite Hcat. cbn [negb]. exact Hrun.
    + destruct (get_all_feeds_run s) as (listed & fs & Hall & _).
      destruct (truthy_id (category_of_url (default "" feed_url) listed)) eqn:Hfound.
      * destruct (Hgo (default "" (category_of_url (default "" feed_url) listed))
                      (set_world (set_db_faults fs (world s)) s) eq_refl eq_refl)
          as (report & s' & Hrun & Hcount & Hp & Ho).
        exists report. erewrite se_try_ok; [done|].
        erewrite se_bind_ok; [|erewrite se_bind_ok; [|exact Hall]; reflexivity].
        rewrite Hfound. cbn [negb]. exact Hrun.
      * exists [("error", PStr "Feed URL not found")].
        erewrite se_try_ok;
          [|erewrite se_bind_ok; [|erewrite se_bind_ok; [|exact Hall]; reflexivity];
            rewrite Hfound; reflexivity].
        done.
  - destruct (get_feeds_by_category_run (default "" category) s)
      as (urls & fs & Hurls).
    eexists. erewrite se_try_ok;
      [|rewrite (se_bind_ok _ _ _ _ _ Hurls);
        erewrite se_bind_ok; [|apply category_loop_run]; reflexivity].
    cbn [fst snd]. split; [done|]. split; [by intros n [= <-]|].
    destruct (cycle_world_frame (map (fun url => (default "" category, url)) urls)
                (set_db_faults fs (world s))) as (Hp & Ho & _).
    simpl. by rewrite Hp, Ho.
  - destruct (check_all_feeds_run bot s) as (listed & fs & Hrun & _).
    eexists. erewrite se_try_ok;
      [|rewrite (se_bind_ok _ _ _ _ _ Hrun); reflexivity].
    cbn [fst snd]. split; [done|]. split; [done|].
    destruct (cycle_world_frame listed (set_db_faults fs (world s))) as (Hp & Ho & _).
    simpl. by rewrite Hp, Ho.
Qed.

(** The same on a site where ann follows the category of a feed with two
    entries: the first fill adds nothing, a preview of the category sends
    one embed, and a check of a url that is not registered is refused. *)
Example catalogue_runs :
  subscribed_to "tech" ann = true
  /\ fst (populate_initial_posts (H := plain_utils) None
            (make_site (make_world [ann] ∅ [] 0 [] (Some feed_ba))
                       [("tech", demo_url)])) = Ok 0
  /\ fst (send_category_previews (H := plain_utils) DiscordBot 1 ["tech"]
            (make_site (make_world [ann] ∅ [] 0 [] (Some feed_ba))
                       [("tech", demo_url)])) = Ok 1
  /\ fst (manual_feed_check (H := plain_utils) None (Some "https://other.example/rss") None
            (make_site (make_world [ann] ∅ [] 0 [] (Some feed_ba))
                       [("tech", demo_url)]))
     = Ok [("error", PStr "Feed URL not found")]
  /\ fst (manual_feed_check (H := plain_utils) None (Some demo_url) None
            (make_site (make_world [ann] ∅ [] 0 [] (Some feed_ba))
                       [("tech", demo_url)]))
     = Ok [("success", PBool true); ("category", PStr "tech");
           ("feed_url", PStr demo_url); ("new_entries", PInt 0)].
Proof. repeat apply conj; vm_refl. Qed.
